(** * NRDC Missing Anchors dashboard: a shallow embedding

    The program is [pages/2_NRDC_Missing_Anchors.py], a Streamlit script
    over pandas.  Every user interaction re-executes the script body from the
    top; [load_data] is memoised by [st.cache_data].

    Layout of the development:
    - [F64]: IEEE binary64 values and the operations the script applies to them;
    - cells, [DataFrame], and the pandas operations the script calls
      (column selection, comparison, [isin], boolean indexing, reductions);
    - [to_csv];
    - the script itself, in a state-and-exception monad over a store of
      DataFrame objects, the [st.cache_data] cache and the rendered elements;
    - theorems. *)

From Stdlib Require Import ZArith List String Ascii Lia.
From Stdlib Require Import Sorting.Sorted Sorting.Permutation.
From Stdlib.Strings Require Import Byte.
From Stdlib Require Import Floats.SpecFloat.
From stdpp Require Import base option list strings pretty.

Open Scope string_scope.
Open Scope Z_scope.

(** ** Binary64 *)

(** numpy's [float64] and Python's [float] are IEEE 754 binary64.  Values are
    [spec_float]s at precision 53 and maximal exponent 1024. *)
Module F64.

Definition prec : Z := 53.
Definition emax : Z := 1024.

Definition t : Type := spec_float.

Definition nan : t := S754_nan.
Definition of_Z (z : Z) : t := binary_normalize prec emax z 0 false.
Definition of_nat (n : nat) : t := of_Z (Z.of_nat n).

Definition add (x y : t) : t := SFadd prec emax x y.
Definition div (x y : t) : t := SFdiv prec emax x y.

(** [x <= y], [x < y], [x == y]; all three are [false] when an operand is NaN. *)
Definition leb (x y : t) : bool := SFleb x y.
Definition ltb (x y : t) : bool := SFltb x y.
Definition eqb (x y : t) : bool := SFeqb x y.
(** [x >= y] *)
Definition geb (x y : t) : bool := SFleb y x.

Definition is_nan (x : t) : bool :=
  match x with S754_nan => true | _ => false end.

(** [round_half_even (n / d)] for [0 <= n], [0 < d]. *)
Definition div_half_even (n d : Z) : Z :=
  let q := n / d in
  let r := n mod d in
  match (2 * r) ?= d with
  | Lt => q
  | Gt => q + 1
  | Eq => if Z.even q then q else q + 1
  end.

Definition two_digits (n : Z) : string :=
  if n <? 10 then "0" ++ pretty n else pretty n.

(** The format specification [:.2f]: the exact value rounded half-to-even to
    two decimals; [nan] and [inf] for the special values. *)
Definition format_2f (x : t) : string :=
  match x with
  | S754_nan => "nan"
  | S754_infinity s => if s then "-inf" else "inf"
  | S754_zero s => if s then "-0.00" else "0.00"
  | S754_finite s m e =>
      let hundredths :=
        if 0 <=? e then Z.pos m * 2 ^ e * 100
        else div_half_even (Z.pos m * 100) (2 ^ (- e)) in
      (if s then "-" else EmptyString) ++
      pretty (hundredths / 100) ++ "." ++ two_digits (hundredths mod 100)
  end.

End F64.

(** ** Exceptions *)

Inductive exn : Type :=
| KeyError (key : string)
| TypeError
| ValueError
| EmptyDataError
| ParserError.

Inductive result (A : Type) : Type :=
| Ok (a : A)
| Raise (e : exn).
Arguments Ok {A} a.
Arguments Raise {A} e.

#[global] Instance result_ret : MRet result := @Ok.
#[global] Instance result_bind : MBind result :=
  fun A B f r => match r with Ok a => f a | Raise e => Raise e end.

(** ** Cells and frames *)

(** A cell of a frame.  Numeric cells are float64; an all-integer column, which
    pandas types int64, is represented by the float64 values of its entries.
    The missing-value marker is the float NaN, in numeric and in object columns
    alike. *)
Inductive cell : Type :=
| CNum (x : F64.t)
| CStr (s : string).

Definition NaN : cell := CNum F64.nan.

Definition isna (c : cell) : bool :=
  match c with CNum x => F64.is_nan x | CStr _ => false end.

(** Python's [a == b] on two cell values: NaN is different from everything. *)
Definition cell_eqb (a b : cell) : bool :=
  match a, b with
  | CNum x, CNum y => F64.eqb x y
  | CStr s, CStr u => String.eqb s u
  | _, _ => false
  end.

(** Equality as pandas' hash tables see it ([isin], [unique], [nunique],
    [value_counts]): as [==], except that NaN matches NaN. *)
Definition cell_same (a b : cell) : bool :=
  cell_eqb a b || (isna a && isna b).

(** Python's [a < b]: numbers with numbers, strings with strings (by code
    point, which on UTF-8 text is the order of the bytes); anything else is a
    [TypeError]. *)
Definition cell_lt (a b : cell) : result bool :=
  match a, b with
  | CNum x, CNum y => Ok (F64.ltb x y)
  | CStr s, CStr u => Ok (String.ltb s u)
  | _, _ => Raise TypeError
  end.

(** A row carries its index label; [to_csv(index=False)] drops it, boolean
    indexing keeps it. *)
Abbreviation row := (nat * list cell)%type.

Record DataFrame : Type := mkDataFrame {
  columns : list string;
  rows : list row
}.

(** [pd.DataFrame()] *)
Definition empty_frame : DataFrame := {| columns := []; rows := [] |}.

(** [df.empty]: some axis has length 0. *)
Definition empty (df : DataFrame) : bool :=
  match columns df, rows df with
  | [], _ | _, [] => true
  | _, _ => false
  end.

(** [len(df)] *)
Definition len (df : DataFrame) : nat := length (rows df).

Fixpoint column_position (name : string) (cols : list string) : option nat :=
  match cols with
  | [] => None
  | c :: cols' =>
      if String.eqb c name then Some 0%nat
      else S <$> column_position name cols'
  end.

(** The cell of a row at a position; a row that is too short reads as NaN
    there, as [read_csv] fills it. *)
Definition cell_at (pos : nat) (r : row) : cell := nth pos (snd r) NaN.

(** [df[name]]: the column as a Series (positional; its index is the frame's). *)
Definition getitem (df : DataFrame) (name : string) : result (list cell) :=
  match column_position name (columns df) with
  | Some pos => Ok (map (cell_at pos) (rows df))
  | None => Raise (KeyError name)
  end.

(** ** Series operations *)

(** The float64 values of a numeric Series; a string in it makes the numeric
    operation raise. *)
Fixpoint as_floats (s : list cell) : result (list F64.t) :=
  match s with
  | [] => Ok []
  | CNum x :: s' => xs ← as_floats s'; Ok (x :: xs)
  | CStr _ :: _ => Raise TypeError
  end.

(** [series >= bound] and [series <= bound] *)
Definition series_ge (s : list cell) (bound : F64.t) : result (list bool) :=
  xs ← as_floats s; Ok (map (fun x => F64.geb x bound) xs).

Definition series_le (s : list cell) (bound : F64.t) : result (list bool) :=
  xs ← as_floats s; Ok (map (fun x => F64.leb x bound) xs).

(** [series == value] *)
Definition series_eq (s : list cell) (v : option cell) : list bool :=
  map (fun c => match v with Some v => cell_eqb c v | None => false end) s.

(** [series.isin(values)] *)
Definition isin (s : list cell) (values : list cell) : list bool :=
  map (fun c => existsb (cell_same c) values) s.

(** [a & b] on two boolean Series over the same index *)
Definition series_and (a b : list bool) : list bool := zip_with andb a b.

Fixpoint select_rows (rs : list row) (mask : list bool) : list row :=
  match rs, mask with
  | r :: rs', b :: mask' =>
      if b then r :: select_rows rs' mask' else select_rows rs' mask'
  | _, _ => []
  end.

(** [df[mask]]: a new frame with the rows where the mask holds; a mask of the
    wrong length is a [ValueError]. *)
Definition getitem_mask (df : DataFrame) (mask : list bool) : result DataFrame :=
  if (length mask =? length (rows df))%nat
  then Ok {| columns := columns df; rows := select_rows (rows df) mask |}
  else Raise ValueError.

(** Reductions skip NaN ([skipna=True]). *)
Definition dropna (xs : list F64.t) : list F64.t :=
  List.filter (fun x => negb (F64.is_nan x)) xs.

Definition fmin (x y : F64.t) : F64.t := if F64.ltb y x then y else x.
Definition fmax (x y : F64.t) : F64.t := if F64.ltb x y then y else x.

Definition reduce (f : F64.t -> F64.t -> F64.t) (xs : list F64.t) : F64.t :=
  match dropna xs with
  | [] => F64.nan
  | x :: xs' => fold_left f xs' x
  end.

(** [series.min()], [series.max()] *)
Definition series_min (s : list cell) : result F64.t :=
  xs ← as_floats s; Ok (reduce fmin xs).

Definition series_max (s : list cell) : result F64.t :=
  xs ← as_floats s; Ok (reduce fmax xs).

(** [series.mean()]: the sum of the values that are not NaN over their number,
    NaN when there is none.  (pandas leaves the order of the additions to
    numpy; they are made here in the order of the Series.) *)
Definition series_mean (s : list cell) : result F64.t :=
  xs ← as_floats s;
  let vs := dropna xs in
  match vs with
  | [] => Ok F64.nan
  | _ => Ok (F64.div (fold_left F64.add vs (F64.of_Z 0)) (F64.of_nat (length vs)))
  end.

(** [series.unique()]: the distinct values in order of first appearance. *)
Fixpoint unique_acc (seen : list cell) (s : list cell) : list cell :=
  match s with
  | [] => []
  | c :: s' =>
      if existsb (cell_same c) seen then unique_acc seen s'
      else c :: unique_acc (c :: seen) s'
  end.

Definition unique (s : list cell) : list cell := unique_acc [] s.

(** [series.nunique()]: the number of distinct values, NaN left out. *)
Definition nunique (s : list cell) : nat :=
  length (unique (List.filter (fun c => negb (isna c)) s)).

(** [sorted(values)]: stable, by [<]; comparing a number with a string
    raises. *)
Fixpoint sorted_insert (x : cell) (l : list cell) : result (list cell) :=
  match l with
  | [] => Ok [x]
  | y :: l' =>
      b ← cell_lt y x;
      if b : bool then l'' ← sorted_insert x l'; Ok (y :: l'')
      else Ok (x :: y :: l')
  end.

Fixpoint sorted (l : list cell) : result (list cell) :=
  match l with
  | [] => Ok []
  | x :: l' => s ← sorted l'; sorted_insert x s
  end.

(** The number of occurrences of a value in a Series. *)
Definition count_of (c : cell) (s : list cell) : nat :=
  length (List.filter (cell_same c) s).

Fixpoint insert_by_count (p : cell * nat) (l : list (cell * nat)) : list (cell * nat) :=
  match l with
  | [] => [p]
  | q :: l' =>
      if (snd q <=? snd p)%nat then p :: q :: l'
      else q :: insert_by_count p l'
  end.

(** [series.value_counts()]: the values that are not NaN with their numbers of
    occurrences, most frequent first (among equal counts pandas fixes no
    order; first appearance is kept here). *)
Definition value_counts (s : list cell) : list (cell * nat) :=
  let vs := List.filter (fun c => negb (isna c)) s in
  fold_right insert_by_count [] (map (fun c => (c, count_of c vs)) (unique vs)).

Fixpoint enumerate_from {A : Type} (i : nat) (l : list A) : list (nat * A) :=
  match l with
  | [] => []
  | x :: l' => (i, x) :: enumerate_from (S i) l'
  end.

(** [series.value_counts().reset_index()] for a Series called [name]: a new
    frame with a fresh positional index, the values in a column [name] and the
    counts in a column [count]. *)
Definition value_counts_reset_index (name : string) (s : list cell) : DataFrame :=
  {| columns := [name; "count"];
     rows := enumerate_from 0
               (map (fun p => [fst p; CNum (F64.of_nat (snd p))]) (value_counts s)) |}.

(** ** The filter expression (lines 63-67)

    [df[(df['Distance'] >= dist_range[0]) & (df['Distance'] <= dist_range[1])
        & (df['Market'].isin(selected_markets))]] *)
Definition filtered_df (df : DataFrame) (dist_range : F64.t * F64.t)
    (selected_markets : list cell) : result DataFrame :=
  distance ← getitem df "Distance";
  lower ← series_ge distance (fst dist_range);
  distance' ← getitem df "Distance";
  upper ← series_le distance' (snd dist_range);
  market ← getitem df "Market";
  getitem_mask df
    (series_and (series_and lower upper) (isin market selected_markets)).

(** [float(df['Distance'].min())], [float(df['Distance'].max())] (lines 44-45) *)
Definition min_dist (df : DataFrame) : result F64.t :=
  distance ← getitem df "Distance"; series_min distance.

Definition max_dist (df : DataFrame) : result F64.t :=
  distance ← getitem df "Distance"; series_max distance.

(** [sorted(df['Market'].unique())] (line 55) *)
Definition all_markets (df : DataFrame) : result (list cell) :=
  market ← getitem df "Market"; sorted (unique market).

(** ** CSV text *)

Definition dquote : ascii := "034"%char.
Definition comma : ascii := ","%char.
Definition LF : ascii := "010"%char.
Definition CR : ascii := "013"%char.

Fixpoint string_exists (p : ascii -> bool) (s : string) : bool :=
  match s with
  | EmptyString => false
  | String a s' => p a || string_exists p s'
  end.

(** [csv.QUOTE_MINIMAL]: a field is quoted when it holds the delimiter, the
    quote character or a line break. *)
Definition needs_quote (s : string) : bool :=
  string_exists
    (fun a => Ascii.eqb a comma || Ascii.eqb a dquote || Ascii.eqb a LF || Ascii.eqb a CR) s.

Fixpoint double_quotes (s : string) : string :=
  match s with
  | EmptyString => EmptyString
  | String a s' =>
      if Ascii.eqb a dquote then String dquote (String dquote (double_quotes s'))
      else String a (double_quotes s')
  end.

Definition csv_field (s : string) : string :=
  if needs_quote s
  then String dquote (double_quotes s ++ String dquote EmptyString)
  else s.

Fixpoint join (sep : string) (l : list string) : string :=
  match l with
  | [] => EmptyString
  | [s] => s
  | s :: l' => s ++ sep ++ join sep l'
  end.

(** One record; a record made of a single empty field is written as a pair of
    quotes. *)
Definition csv_record (fields : list string) : string :=
  match fields with
  | [EmptyString] => String dquote (String dquote EmptyString)
  | _ => join (String comma EmptyString) (map csv_field fields)
  end.

Fixpoint concat_lines (linesep : string) (l : list string) : string :=
  match l with
  | [] => EmptyString
  | s :: l' => s ++ linesep ++ concat_lines linesep l'
  end.

(** [s.encode('utf-8')]: strings are held as their UTF-8 bytes. *)
Definition encode_utf8 (s : string) : list byte := list_byte_of_string s.

(** ** The store, the cache and the page *)

(** Python variables hold references: a DataFrame is an object in a store, and
    [df[...] = ...] or [df.columns = ...] update the object in place. *)
Abbreviation loc := nat (only parsing).

#[global] Instance DataFrame_inhabited : Inhabited DataFrame := populate empty_frame.

(** A plotly express figure: the frame it was built from and its settings. *)
Inductive figure : Type :=
| px_bar (data : DataFrame) (x y color title : string)
| px_histogram (data : DataFrame) (x : string) (nbins : nat) (title : string).

Inductive metric_value : Type :=
| MInt (n : Z)
| MFloat (x : F64.t)
| MStr (s : string).

(** What a run puts on the page, in order. *)
Inductive element : Type :=
| sidebar_write (text : string)
| sidebar_write_list (text : string) (items : list string)
| sidebar_success (text : string)
| sidebar_error (text : string)
| sidebar_header (text : string)
| sidebar_slider (label : string) (min_value max_value : F64.t) (value : F64.t * F64.t)
| sidebar_multiselect (label : string) (options default : list cell)
| st_error (text : string)
| st_title (text : string)
| st_info (text : string)
| st_markdown (text : string)
| st_columns (n : nat)
| st_metric (label : string) (value : metric_value)
| st_plotly_chart (fig : figure)
| st_dataframe (data : DataFrame)
| st_download_button (label : string) (data : list byte) (file_name mime : string)
| st_selectbox (label : string) (options : list cell).

Record world : Type := mkWorld {
  heap : list DataFrame;
  (** [st.cache_data]'s entry for [load_data]: the value it returned and the
      elements it wrote, which a cache hit replays. *)
  cache : option (DataFrame * list element);
  page : list element
}.

Definition M (A : Type) : Type := world -> result A * world.

#[global] Instance M_ret : MRet M := fun A a w => (Ok a, w).
#[global] Instance M_bind : MBind M :=
  fun A B f m w =>
    match m w with
    | (Ok a, w') => f a w'
    | (Raise e, w') => (Raise e, w')
    end.

Definition lift {A : Type} (r : result A) : M A := fun w => (r, w).

Definition emit (e : element) : M unit :=
  fun w => (Ok tt, {| heap := heap w; cache := cache w; page := page w ++ [e] |}).

(** A new object. *)
Definition alloc (df : DataFrame) : M loc :=
  fun w => (Ok (length (heap w)),
            {| heap := heap w ++ [df]; cache := cache w; page := page w |}).

Definition deref (l : loc) : M DataFrame :=
  fun w => (Ok (heap w !!! l), w).

Definition store (l : loc) (df : DataFrame) : M unit :=
  fun w => (Ok tt, {| heap := <[l := df]> (heap w); cache := cache w; page := page w |}).

Fixpoint set_cell (pos : nat) (c : cell) (cells : list cell) : list cell :=
  match pos, cells with
  | O, [] => [c]
  | O, _ :: cells' => c :: cells'
  | S pos', [] => NaN :: set_cell pos' c []
  | S pos', c' :: cells' => c' :: set_cell pos' c cells'
  end.

Fixpoint set_column (pos : nat) (rs : list row) (s : list cell) : list row :=
  match rs, s with
  | (i, cells) :: rs', c :: s' => (i, set_cell pos c cells) :: set_column pos rs' s'
  | _, _ => []
  end.

(** [df[name] = series], in place: the column is replaced, or added last when
    the frame has none of that name; a Series of another length is a
    [ValueError]. *)
Definition setitem (l : loc) (name : string) (s : list cell) : M unit :=
  df ← deref l;
  if (length s =? length (rows df))%nat then
    match column_position name (columns df) with
    | Some pos =>
        store l {| columns := columns df; rows := set_column pos (rows df) s |}
    | None =>
        store l {| columns := columns df ++ [name];
                   rows := set_column (length (columns df)) (rows df) s |}
    end
  else lift (Raise ValueError).

(** [df.columns = names], in place. *)
Definition set_columns (l : loc) (names : list string) : M unit :=
  df ← deref l;
  if (length names =? length (columns df))%nat
  then store l {| columns := names; rows := rows df |}
  else lift (Raise ValueError).

(** ** The script *)

(** What [pd.read_csv] makes of a file: a frame, or an exception. *)
Inductive file : Type :=
| table (df : DataFrame)
| unreadable (e : exn).

(** The part of the operating system the script looks at: the folder of the
    script, the file at [file_path] (if any), [os.listdir(base_path)] and
    [os.linesep]. *)
Record os_state : Type := mkOs {
  script_dir : string;
  csv_file : option file;
  dir_listing : list string;
  linesep : string
}.

(** The values the user has given to the three widgets; [None] for a widget
    that was not touched, which then returns its default. *)
Record widgets : Type := mkWidgets {
  slider_value : option (F64.t * F64.t);
  multiselect_value : option (list cell);
  selectbox_value : option cell
}.

Definition untouched : widgets :=
  {| slider_value := None; multiselect_value := None; selectbox_value := None |}.

Fixpoint ends_with (a : ascii) (s : string) : bool :=
  match s with
  | EmptyString => false
  | String c EmptyString => Ascii.eqb c a
  | String _ s' => ends_with a s'
  end.

(** [os.path.join(a, b)] for a relative [b] *)
Definition path_join (a b : string) : string :=
  match a with
  | EmptyString => b
  | _ => if ends_with "/"%char a then a ++ b else a ++ "/" ++ b
  end.

Section Script.

(** Two functions of the Python side that are taken as given: the conversion
    of a string to a number inside [pd.to_numeric] ([None] when the string is
    not a number), and [repr] of a float. *)
Variable parse_number : string -> option F64.t.
Variable repr_float : F64.t -> string.

Variable os : os_state.

(** [pd.to_numeric(series, errors='coerce')]: a new Series; a string that is
    not a number becomes NaN. *)
Definition coerce (c : cell) : cell :=
  match c with
  | CNum x => CNum x
  | CStr t =>
      match parse_number t with
      | Some x => CNum x
      | None => NaN
      end
  end.

Definition to_numeric_coerce (s : list cell) : list cell := map coerce s.

(** A cell in CSV text: NaN is written as the empty field. *)
Definition csv_cell (c : cell) : string :=
  match c with
  | CStr s => s
  | CNum x => if F64.is_nan x then EmptyString else repr_float x
  end.

Definition csv_fields (ncols : nat) (r : row) : list string :=
  map (fun pos => csv_cell (cell_at pos r)) (seq 0 ncols).

(** [df.to_csv(index=False)]: the header, then one record per row, without
    the index labels. *)
Definition to_csv (df : DataFrame) : string :=
  concat_lines (linesep os)
    (map csv_record
       (columns df :: map (csv_fields (length (columns df))) (rows df))).

(** [str(v)] inside an f-string *)
Definition str (v : option cell) : string :=
  match v with
  | None => "None"
  | Some (CStr s) => s
  | Some (CNum x) => repr_float x
  end.

Definition read_csv (f : file) : M loc :=
  match f with
  | table df => alloc df
  | unreadable e => lift (Raise e)
  end.

(** Lines 13-30. *)
Definition load_data : M loc :=
  let base_path := script_dir os in
  let file_path := path_join base_path "../nrdc_missing_anchors.csv" in
  emit (sidebar_write ("Looking for file at: " ++ file_path));;
  match csv_file os with
  | Some f =>
      emit (sidebar_success "✅ File Found!");;
      df ← read_csv f;
      d ← deref df;
      distance ← lift (getitem d "Distance");
      setitem df "Distance" (to_numeric_coerce distance);;
      mret df
  | None =>
      emit (sidebar_error "❌ File Still Not Found");;
      emit (sidebar_write_list "Files in this folder:" (dir_listing os));;
      alloc empty_frame
  end.

(** [@st.cache_data]: the first call runs the function and keeps a copy of
    its value together with the elements it wrote; later calls replay the
    elements and hand out a fresh copy of the value.  A call that raises
    leaves no entry. *)
Definition cache_data (f : M loc) : M loc :=
  fun w =>
    match cache w with
    | Some (value, written) =>
        alloc value {| heap := heap w; cache := cache w; page := page w ++ written |}
    | None =>
        match f {| heap := heap w; cache := None; page := [] |} with
        | (Ok l, w') =>
            (Ok l, {| heap := heap w';
                      cache := Some (heap w' !!! l, page w');
                      page := page w ++ page w' |})
        | (Raise e, w') =>
            (Raise e, {| heap := heap w'; cache := None; page := page w ++ page w' |})
        end
    end.

(** The widgets write themselves on the page and return the value the user
    gave them, or their default.  (What Streamlit itself checks about a
    widget's arguments is not part of the script.) *)
Definition slider (label : string) (min_value max_value : F64.t)
    (value : F64.t * F64.t) (given : option (F64.t * F64.t)) : M (F64.t * F64.t) :=
  emit (sidebar_slider label min_value max_value value);;
  mret (default value given).

Definition multiselect (label : string) (options dflt : list cell)
    (given : option (list cell)) : M (list cell) :=
  emit (sidebar_multiselect label options dflt);;
  mret (default dflt given).

Definition selectbox (label : string) (options : list cell)
    (given : option cell) : M (option cell) :=
  emit (st_selectbox label options);;
  mret (match given with Some v => Some v | None => head options end).

(** Lines 40-60: the sidebar; returns [dist_range], [all_markets] and
    [selected_markets]. *)
Definition sidebar_filters (df : loc) (ws : widgets)
    : M (F64.t * F64.t * list cell * list cell) :=
  emit (sidebar_header "Filter Controls");;
  d ← deref df;
  lo ← lift (min_dist d);
  hi ← lift (max_dist d);
  dist_range ← slider "Select Distance Range (Drag Filter)" lo hi (lo, hi)
                   (slider_value ws);
  markets ← lift (all_markets d);
  selected_markets ← multiselect "Select Markets" markets markets
                         (multiselect_value ws);
  mret (dist_range, markets, selected_markets).

(** Lines 63-67: the filtered view is a new object. *)
Definition apply_filters (df : loc) (dist_range : F64.t * F64.t)
    (selected_markets : list cell) : M loc :=
  d ← deref df;
  view ← lift (filtered_df d dist_range selected_markets);
  alloc view.

(** Lines 70-74. *)
Definition top_row_metrics (filtered : loc) : M unit :=
  emit (st_columns 4);;
  v ← deref filtered;
  emit (st_metric "Total Records" (MInt (Z.of_nat (len v))));;
  market ← lift (getitem v "Market");
  emit (st_metric "Unique Markets" (MInt (Z.of_nat (nunique market))));;
  distance ← lift (getitem v "Distance");
  mean ← lift (series_mean distance);
  emit (st_metric "Avg Distance" (MStr (F64.format_2f mean)));;
  distance' ← lift (getitem v "Distance");
  highest ← lift (series_max distance');
  emit (st_metric "Max Distance" (MFloat highest)).

(** Lines 77-98. *)
Definition middle_row_charts (filtered : loc) : M unit :=
  emit (st_markdown "### 📊 Visual Analytics");;
  emit (st_columns 2);;
  v ← deref filtered;
  market ← lift (getitem v "Market");
  market_counts ← alloc (value_counts_reset_index "Market" market);
  set_columns market_counts ["Market"; "Count"];;
  counts ← deref market_counts;
  emit (st_plotly_chart
          (px_bar counts "Market" "Count" "Market" "Issues per Market"));;
  v' ← deref filtered;
  emit (st_plotly_chart
          (px_histogram v' "Distance" 20 "Distance Spread (Source to Target)")).

(** Lines 101-127. *)
Definition bottom_section (df filtered : loc) (markets : list cell)
    (ws : widgets) : M unit :=
  emit (st_markdown "### 📋 Filtered Data Table");;
  v ← deref filtered;
  emit (st_dataframe v);;
  emit (st_markdown "### 📥 Download Reports");;
  emit (st_columns 2);;
  v' ← deref filtered;
  let csv_filtered := encode_utf8 (to_csv v') in
  emit (st_download_button "Download Filtered Results (CSV)" csv_filtered
          "nrdc_filtered_view.csv" "text/csv");;
  market_to_export ← selectbox "Select a specific Market to export:" markets
                         (selectbox_value ws);
  d ← deref df;
  market ← lift (getitem d "Market");
  one_market ← lift (getitem_mask d (series_eq market market_to_export));
  report ← alloc one_market;
  r ← deref report;
  let market_csv := encode_utf8 (to_csv r) in
  emit (st_download_button
          ("Download Market " ++ str market_to_export ++ " Full Report")
          market_csv
          ("market_" ++ str market_to_export ++ "_report.csv") "text/csv").

(** Lines 37-127: the branch taken when the frame is not empty. *)
Definition dashboard (df : loc) (ws : widgets) : M unit :=
  emit (st_title "📡 NRDC Missing Anchors Dashboard");;
  emit (st_info "Use the sidebar to filter data by distance and market. Data updates automatically.");;
  '(dist_range, markets, selected_markets) ← sidebar_filters df ws;
  filtered ← apply_filters df dist_range selected_markets;
  top_row_metrics filtered;;
  middle_row_charts filtered;;
  bottom_section df filtered markets ws.

(** Lines 32-127: one execution of the script body. *)
Definition script (ws : widgets) : M unit :=
  df ← cache_data load_data;
  d ← deref df;
  if empty d
  then emit (st_error "Dataset 'nrdc_missing_anchors.csv' not found. Please ensure the file is in the same directory.")
  else dashboard df ws.

(** One rendering pass: the script runs on a clean page and a clean store;
    only the cache outlives it. *)
Definition rerun (c : option (DataFrame * list element)) (ws : widgets)
    : result unit * world :=
  script ws {| heap := []; cache := c; page := [] |}.

(** A session: the passes of one process, from an empty cache, one per
    interaction.  Returns what each pass left. *)
Fixpoint session_from (c : option (DataFrame * list element))
    (interactions : list widgets) : list (result unit * world) :=
  match interactions with
  | [] => []
  | ws :: rest =>
      let out := rerun c ws in
      out :: session_from (cache (snd out)) rest
  end.

Definition session (interactions : list widgets) : list (result unit * world) :=
  session_from None interactions.

End Script.

(** * Properties *)

(** ** Datasets *)

Definition numeric (c : cell) : bool :=
  match c with CNum _ => true | CStr _ => false end.

(** The cell of a row in the column called [name]. *)
Definition field (df : DataFrame) (name : string) (r : row) : option cell :=
  pos ← column_position name (columns df); Some (cell_at pos r).

(** A Dataset in the sense of the data model: a frame with a [Distance] and a
    [Market] column whose [Distance] cells are all numbers. *)
Definition is_dataset (df : DataFrame) : bool :=
  match column_position "Distance" (columns df),
        column_position "Market" (columns df) with
  | Some pd, Some _ => forallb (fun r => numeric (cell_at pd r)) (rows df)
  | _, _ => false
  end.

(** [m] is one of the labels in [S]. *)
Definition market_member (m : cell) (S : list cell) : Prop :=
  ∃ s, In s S ∧ cell_same m s = true.

(** The rows the Filter Stage is to keep, row by row. *)
Definition row_in_view (df : DataFrame) (lo hi : F64.t) (S : list cell)
    (r : row) : bool :=
  match field df "Distance" r, field df "Market" r with
  | Some (CNum d), Some m => F64.leb lo d && F64.leb d hi && existsb (cell_same m) S
  | _, _ => false
  end.


Definition float_of (c : cell) : F64.t :=
  match c with CNum x => x | CStr _ => F64.nan end.

(** ** The scenario of the specification, and instances for the examples *)

(** [[{Distance: 1.0, Market: "A"}, {Distance: 5.0, Market: "B"},
      {Distance: 9.0, Market: "A"}]] *)
Definition scenario : DataFrame :=
  {| columns := ["Distance"; "Market"];
     rows := [(0%nat, [CNum (F64.of_Z 1); CStr "A"]);
              (1%nat, [CNum (F64.of_Z 5); CStr "B"]);
              (2%nat, [CNum (F64.of_Z 9); CStr "A"])] |}.

Definition digit_of (a : ascii) : option Z :=
  let n := Z.of_nat (nat_of_ascii a) in
  if (48 <=? n) && (n <=? 57) then Some (n - 48) else None.

(** The digits of [s] up to its end or, where [point] allows it, up to a
    point, onto [acc]; with their number and the rest after the point. *)
Fixpoint read_digits (point : bool) (acc : Z) (count : nat) (s : string)
    : option (Z * nat * string) :=
  match s with
  | EmptyString => Some (acc, count, EmptyString)
  | String a s' =>
      if point && Ascii.eqb a "."%char then Some (acc, count, s')
      else match digit_of a with
           | Some d => read_digits point (10 * acc + d) (S count) s'
           | None => None
           end
  end.

(** The number [n / d], correctly rounded. *)
Definition ratio (negative : bool) (n d : Z) : F64.t :=
  if n =? 0 then S754_zero negative
  else let '(q, e, l) := SFdiv_core_binary F64.prec F64.emax n 0 d 0 in
       binary_round_aux F64.prec F64.emax negative q e l.

(** A number parser for the examples: an optional minus sign, digits, and
    optionally a point and more digits, read as the nearest float.  Everything
    else is not a number. *)
Definition parse_decimal (s : string) : option F64.t :=
  let '(negative, body) :=
    match s with
    | String "-"%char s' => (true, s')
    | _ => (false, s)
    end in
  match read_digits true 0 0 body with
  | Some (whole, n1, rest) =>
      match read_digits false whole 0 rest with
      | Some (all, n2, _) =>
          if (n1 + n2 =? 0)%nat then None
          else Some (ratio negative all (10 ^ Z.of_nat n2))
      | None => None
      end
  | None => None
  end.

Fixpoint strip_zeros_rev (s : list ascii) : list ascii :=
  match s with
  | "0"%char :: s' => strip_zeros_rev s'
  | _ => s
  end.

Definition pad_left (width : nat) (s : string) : string :=
  string_of_list_ascii (repeat "0"%char (width - String.length s)) ++ s.

(** A float printer for the examples: the exact decimal expansion of the
    value, with at least one digit after the point.  It is [repr] on the floats
    whose shortest form is exact and needs no exponent, such as 1.0, 5.0 and
    0.5. *)
Definition repr_exact (x : F64.t) : string :=
  match x with
  | S754_nan => "nan"
  | S754_infinity s => if s then "-inf" else "inf"
  | S754_zero s => if s then "-0.0" else "0.0"
  | S754_finite s m e =>
      let sign := if s then "-" else EmptyString in
      if 0 <=? e then sign ++ pretty (Z.pos m * 2 ^ e) ++ ".0"
      else
        let k := Z.to_nat (- e) in
        let n := Z.pos m * 5 ^ (- e) in
        let whole := n / 10 ^ (- e) in
        let frac := pad_left k (pretty (n mod 10 ^ (- e))) in
        let digits := rev (strip_zeros_rev (rev (list_ascii_of_string frac))) in
        sign ++ pretty whole ++ "." ++
        match digits with
        | [] => "0"
        | _ => string_of_list_ascii digits
        end
  end.

(** The page of a run that found no file. *)
Definition file_not_found_page (os : os_state) : list element :=
  [sidebar_write ("Looking for file at: "
                  ++ path_join (script_dir os) "../nrdc_missing_anchors.csv");
   sidebar_error "❌ File Still Not Found";
   sidebar_write_list "Files in this folder:" (dir_listing os);
   st_error "Dataset 'nrdc_missing_anchors.csv' not found. Please ensure the file is in the same directory."].

(** What the metrics row adds to the page. *)
Definition metrics_row (total unique_markets : Z) (avg : string) (highest : F64.t)
    : list element :=
  [st_columns 4;
   st_metric "Total Records" (MInt total);
   st_metric "Unique Markets" (MInt unique_markets);
   st_metric "Avg Distance" (MStr avg);
   st_metric "Max Distance" (MFloat highest)].

Definition write (w : world) (elements : list element) : world :=
  {| heap := heap w; cache := cache w; page := page w ++ elements |}.

(** Operating systems for the examples. *)
Definition os_with (f : option file) : os_state :=
  {| script_dir := "/app/pages";
     csv_file := f;
     dir_listing := ["2_NRDC_Missing_Anchors.py"];
     linesep := String LF EmptyString |}.

(** A computation leaves the objects below [n] and the cache as they are; [Q]
    holds of the value it returns. *)
Definition keeps {A : Type} (n : nat) (m : M A) (Q : A → Prop) : Prop :=
  ∀ w, (n ≤ length (heap w))%nat →
    (n ≤ length (heap (m w).2))%nat ∧
    (∀ l, (l < n)%nat → heap (m w).2 !! l = heap w !! l) ∧
    cache (m w).2 = cache w ∧
    match (m w).1 with Ok a => Q a | Raise _ => True end.

(** The frame [load_data] makes of a table whose [Distance] column is at
    position [pd]: that column coerced, cell by cell, the rest as read. *)
Definition coerced_frame (parse_number : string → option F64.t) (pd : nat)
    (raw : DataFrame) : DataFrame :=
  {| columns := columns raw;
     rows := map (fun r => (r.1, set_cell pd (coerce parse_number (cell_at pd r)) r.2))
               (rows raw) |}.

(** The page of [load_data] when it found the file. *)
Definition file_found_page (os : os_state) : list element :=
  [sidebar_write ("Looking for file at: "
                  ++ path_join (script_dir os) "../nrdc_missing_anchors.csv");
   sidebar_success "✅ File Found!"].


Definition table_with_gap : DataFrame :=
  {| columns := ["Distance"; "Market"];
     rows := [(0%nat, [CStr "1.5"; CStr "A"]);
              (1%nat, [CStr "n/a"; CStr "A"]);
              (2%nat, [CStr "4"; CStr "B"])] |}.

Definition fresh : world := {| heap := []; cache := None; page := [] |}.

(** What every pass of a session without the file leaves. *)
Definition file_not_found_state (os : os_state) : result unit * world :=
  (Ok tt,
   {| heap := [empty_frame];
      cache := Some (empty_frame, firstn 3 (file_not_found_page os));
      page := file_not_found_page os |}).



(** ** Further notions for the properties of the stages *)

(** The row has a Distance that is not missing. *)
Definition has_distance (df : DataFrame) (r : row) : bool :=
  match field df "Distance" r with
  | Some c => numeric c && negb (isna c)
  | None => false
  end.

(** The cells of one kind in a Series. *)
Definition has_string (s : list cell) : Prop := ∃ t, In (CStr t) s.
Definition has_number (s : list cell) : Prop := ∃ x, In (CNum x) s.

(** The strings of a Series of strings. *)
Definition label_of (c : cell) : string :=
  match c with CStr t => t | CNum _ => EmptyString end.

(** Tables for the examples: a header and no row; no [Market] column; a
    [Market] column with an empty cell among its labels. *)
Definition table_header_only : DataFrame :=
  {| columns := ["Distance"; "Market"]; rows := [] |}.


Definition table_mixed_markets : DataFrame :=
  {| columns := ["Distance"; "Market"];
     rows := [(0%nat, [CNum (F64.of_Z 1); CStr "A"]);
              (1%nat, [CNum (F64.of_Z 5); NaN])] |}.

(** A Series holds both numbers and strings. *)
Definition mixed_kinds (s : list cell) : bool :=
  existsb numeric s && existsb (fun c => negb (numeric c)) s.

(** The order of Python on strings. *)
Definition str_lt (a b : string) : Prop := String.ltb a b = true.

(** [a] is not after [b], for two strings. *)
Definition not_after (a b : cell) : Prop :=
  String.ltb (label_of b) (label_of a) = false.

(** The exception with which [load_data] ends on a file that exists, if any:
    the one of [pd.read_csv], or the [KeyError] of [df['Distance']]. *)
Definition load_error (f : file) : option exn :=
  match f with
  | unreadable e => Some e
  | table raw =>
      match column_position "Distance" (columns raw) with
      | Some _ => None
      | None => Some (KeyError "Distance")
      end
  end.

(** The store a failed load leaves. *)
Definition read_so_far (f : file) : list DataFrame :=
  match f with
  | unreadable _ => []
  | table raw => [raw]
  end.

(** The banner of line 35. *)
Definition not_found_banner : element :=
  st_error "Dataset 'nrdc_missing_anchors.csv' not found. Please ensure the file is in the same directory.".

(** The frame behind the bar chart, for the [Market] column at position
    [pm] of a view: the counts per market under the names of line 83. *)
Definition market_counts_frame (pm : nat) (v : DataFrame) : DataFrame :=
  {| columns := ["Market"; "Count"];
     rows := enumerate_from 0
               (map (fun p => [p.1; CNum (F64.of_nat p.2)])
                  (value_counts (map (cell_at pm) (rows v)))) |}.

(** ** Lists, masks and Series *)

Lemma result_bind_Ok {A B : Type} (f : A → result B) (a : A) :
  (Ok a ≫= f) = f a.
Proof. reflexivity. Qed.

Lemma as_floats_numeric (s : list cell) :
  forallb numeric s = true → as_floats s = Ok (map float_of s).
Proof.
  induction s as [|c s IH]; simpl; [reflexivity|].
  destruct c as [x|t]; simpl; [|discriminate].
  intros H. rewrite (IH H). reflexivity.
Qed.

Lemma as_floats_Ok_numeric (s : list cell) (xs : list F64.t) :
  as_floats s = Ok xs → forallb numeric s = true.
Proof.
  revert xs. induction s as [|c s IH]; intros xs; simpl; [reflexivity|].
  destruct c as [x|t]; simpl; [|discriminate].
  destruct (as_floats s) as [ys|e] eqn:E; simpl; [|discriminate].
  intros _. exact (IH ys eq_refl).
Qed.

Lemma forallb_map {A B : Type} (p : B → bool) (f : A → B) (l : list A) :
  forallb p (map f l) = forallb (fun a => p (f a)) l.
Proof. induction l as [|a l IH]; simpl; [reflexivity|]. now rewrite IH. Qed.

Lemma zip_with_map_map {A B C D : Type} (f : B → C → D) (g : A → B) (h : A → C)
    (l : list A) :
  zip_with f (map g l) (map h l) = map (fun a => f (g a) (h a)) l.
Proof. induction l as [|a l IH]; simpl; [reflexivity|]. now rewrite IH. Qed.

Lemma select_rows_map (p : row → bool) (rs : list row) :
  select_rows rs (map p rs) = List.filter p rs.
Proof.
  induction rs as [|r rs IH]; simpl; [reflexivity|].
  destruct (p r); now rewrite IH.
Qed.

Lemma getitem_mask_map (df : DataFrame) (p : row → bool) :
  getitem_mask df (map p (rows df))
  = Ok {| columns := columns df; rows := List.filter p (rows df) |}.
Proof.
  unfold getitem_mask. rewrite length_map, Nat.eqb_refl.
  now rewrite select_rows_map.
Qed.

Lemma filter_ext_in' {A : Type} (p q : A → bool) (l : list A) :
  (∀ a, In a l → p a = q a) → List.filter p l = List.filter q l.
Proof.
  induction l as [|a l IH]; simpl; intros H; [reflexivity|].
  rewrite (H a) by now left.
  rewrite IH by (intros b Hb; apply H; now right). reflexivity.
Qed.

Lemma filter_false {A : Type} (l : list A) :
  List.filter (fun _ => false) l = [].
Proof. induction l as [|a l IH]; simpl; auto. Qed.

Lemma existsb_market_member (m : cell) (S : list cell) :
  existsb (cell_same m) S = true ↔ market_member m S.
Proof. unfold market_member. apply existsb_exists. Qed.

Lemma cell_same_string (t : string) (c : cell) :
  cell_same (CStr t) c = true ↔ c = CStr t.
Proof.
  unfold cell_same. destruct c as [x|u]; simpl.
  - split; [intros H; discriminate | intros H; discriminate].
  - rewrite orb_false_r. rewrite String.eqb_eq. split; congruence.
Qed.

(** For a string label, being one of [S] is plain membership. *)
Lemma market_member_string (t : string) (S : list cell) :
  market_member (CStr t) S ↔ In (CStr t) S.
Proof.
  unfold market_member. split.
  - intros (s & Hin & Hs). apply cell_same_string in Hs. now subst.
  - intros Hin. exists (CStr t). split; [assumption|]. now apply cell_same_string.
Qed.

(** ** The Filter Stage *)

(** The filter expression on a Dataset, in closed form. *)
Lemma filtered_df_dataset (df : DataFrame) (lo hi : F64.t) (S : list cell) :
  is_dataset df = true →
  filtered_df df (lo, hi) S
  = Ok {| columns := columns df;
          rows := List.filter (row_in_view df lo hi S) (rows df) |}.
Proof.
  unfold is_dataset, filtered_df, getitem.
  destruct (column_position "Distance" (columns df)) as [pd|] eqn:Hpd; [|discriminate].
  destruct (column_position "Market" (columns df)) as [pm|] eqn:Hpm; [|discriminate].
  intros Hnum.
  assert (Hfl : as_floats (map (cell_at pd) (rows df))
                = Ok (map float_of (map (cell_at pd) (rows df))))
    by (apply as_floats_numeric; now rewrite forallb_map).
  unfold series_ge, series_le, series_and, isin.
  repeat (rewrite ?Hfl; rewrite result_bind_Ok).
  rewrite !map_map, !zip_with_map_map, getitem_mask_map.
  do 2 f_equal. apply filter_ext_in'. intros r Hr.
  unfold row_in_view, field. rewrite Hpd, Hpm. simpl.
  rewrite forallb_forall in Hnum. specialize (Hnum r Hr).
  destruct (cell_at pd r) as [d|t]; [reflexivity|discriminate].
Qed.

Lemma row_in_view_spec (df : DataFrame) (lo hi : F64.t) (S : list cell) (r : row) :
  row_in_view df lo hi S r = true ↔
  ∃ d m, field df "Distance" r = Some (CNum d) ∧ field df "Market" r = Some m ∧
         F64.leb lo d = true ∧ F64.leb d hi = true ∧ market_member m S.
Proof.
  unfold row_in_view. split.
  - destruct (field df "Distance" r) as [[d|t]|]; try discriminate.
    destruct (field df "Market" r) as [m|]; try discriminate.
    rewrite !andb_true_iff, existsb_market_member.
    intros [[H1 H2] H3]. exists d, m. auto.
  - intros (d & m & -> & -> & H1 & H2 & H3).
    rewrite H1, H2. simpl. now apply existsb_market_member.
Qed.

(** C1.  On every Dataset, for every pair of bounds [lo], [hi] (in particular
    every closed interval with [lo <= hi]) and every collection [S] of market
    labels, the Filter Stage returns a view with the columns of the Dataset
    whose rows are exactly the rows of the Dataset, in their original order,
    whose Distance [d] satisfies [lo <= d <= hi], both ends included, and whose
    Market is one of [S]. *)
Theorem filter_stage_exact (df : DataFrame) (lo hi : F64.t) (S : list cell) :
  is_dataset df = true →
  ∃ view,
    filtered_df df (lo, hi) S = Ok view ∧
    columns view = columns df ∧
    rows view = List.filter (row_in_view df lo hi S) (rows df) ∧
    ∀ r, In r (rows view) ↔
         In r (rows df) ∧
         ∃ d m, field df "Distance" r = Some (CNum d) ∧
                field df "Market" r = Some m ∧
                F64.leb lo d = true ∧ F64.leb d hi = true ∧
                market_member m S.
Proof.
  intros Hds. eexists. split; [apply filtered_df_dataset, Hds|].
  simpl. split; [reflexivity|]. split; [reflexivity|].
  intros r. rewrite filter_In, row_in_view_spec. reflexivity.
Qed.

Lemma filter_stage_exact_witness :
  is_dataset scenario = true ∧
  ∃ view,
    filtered_df scenario (F64.of_Z 0, F64.of_Z 10) [CStr "B"] = Ok view ∧
    columns view = columns scenario ∧
    rows view =
      List.filter (row_in_view scenario (F64.of_Z 0) (F64.of_Z 10) [CStr "B"])
        (rows scenario) ∧
    ∀ r, In r (rows view) ↔
         In r (rows scenario) ∧
         ∃ d m, field scenario "Distance" r = Some (CNum d) ∧
                field scenario "Market" r = Some m ∧
                F64.leb (F64.of_Z 0) d = true ∧ F64.leb d (F64.of_Z 10) = true ∧
                market_member m [CStr "B"].
Proof.
  split; [reflexivity|].
  exact (filter_stage_exact scenario (F64.of_Z 0) (F64.of_Z 10) [CStr "B"] eq_refl).
Defined.

(** C2.  On every Dataset and for every distance range, an empty selection of
    markets gives an empty view: the Dataset's columns and no row. *)
Theorem filter_stage_no_market (df : DataFrame) (dist_range : F64.t * F64.t) :
  is_dataset df = true →
  filtered_df df dist_range [] = Ok {| columns := columns df; rows := [] |}.
Proof.
  intros Hds. destruct dist_range as [lo hi].
  rewrite filtered_df_dataset by assumption.
  do 2 f_equal. rewrite <- (filter_false (rows df)).
  apply filter_ext_in'. intros r _. unfold row_in_view.
  destruct (field df "Distance" r) as [[d|t]|]; try reflexivity.
  destruct (field df "Market" r); [|reflexivity].
  simpl. apply andb_false_r.
Qed.

Lemma filter_stage_no_market_witness :
  is_dataset scenario = true ∧
  filtered_df scenario (F64.of_Z 0, F64.of_Z 10) []
  = Ok {| columns := columns scenario; rows := [] |}.
Proof.
  split; [reflexivity|].
  exact (filter_stage_no_market scenario (F64.of_Z 0, F64.of_Z 10) eq_refl).
Defined.

(** ** The Aggregation Stage *)

Lemma result_bind_Raise {A B : Type} (f : A → result B) (e : exn) :
  (Raise e ≫= f) = Raise e.
Proof. reflexivity. Qed.

Ltac case_result :=
  match goal with
  | |- context [@mbind result _ _ _ _ ?r] =>
      lazymatch r with
      | Ok _ => rewrite result_bind_Ok
      | Raise _ => rewrite result_bind_Raise
      | mbind _ _ => fail
      | _ => destruct r eqn:?
      end
  end.

(** Unfolds the operations of [M] so that a run on a given world computes. *)
Ltac run_M :=
  unfold mbind, M_bind, mret, M_ret, emit, deref, lift, alloc, store, write;
  cbn [heap cache page fst snd].

(** A view that the filter expression returned has the columns it reads. *)
Lemma filtered_df_columns (df : DataFrame) (dist_range : F64.t * F64.t)
    (S : list cell) (view : DataFrame) :
  filtered_df df dist_range S = Ok view →
  columns view = columns df ∧
  is_Some (column_position "Distance" (columns df)) ∧
  is_Some (column_position "Market" (columns df)).
Proof.
  unfold filtered_df, getitem.
  destruct (column_position "Distance" (columns df)) as [pd|]; [|discriminate].
  destruct (column_position "Market" (columns df)) as [pm|];
    repeat case_result; try discriminate.
  unfold getitem_mask.
  destruct (_ =? _)%nat; [|discriminate].
  intros [= <-]. simpl. eauto.
Qed.

(** C3.  On a view that the Filter Stage returned and that has no row, the
    Aggregation Stage does not raise: it ends normally, having shown 0 as the
    number of records, 0 as the number of distinct markets, the text [nan] as
    the mean Distance and NaN as the maximum Distance; the store is as it was. *)
Theorem empty_view_metrics (df : DataFrame) (dist_range : F64.t * F64.t)
    (S : list cell) (view : DataFrame) (w : world) (filtered : loc) :
  filtered_df df dist_range S = Ok view →
  rows view = [] →
  heap w !!! filtered = view →
  top_row_metrics filtered w = (Ok tt, write w (metrics_row 0 0 "nan" F64.nan)).
Proof.
  intros Hf Hrows Hw.
  apply filtered_df_columns in Hf as (Hc & [pd Hpd] & [pm Hpm]).
  unfold top_row_metrics. run_M. rewrite Hw.
  unfold getitem, len. rewrite Hc, Hpd, Hpm, Hrows. cbn.
  now rewrite <- !app_assoc.
Qed.

Lemma empty_view_metrics_witness :
  let view := {| columns := columns scenario; rows := [] |} in
  let w := {| heap := [scenario; view]; cache := None; page := [] |} in
  filtered_df scenario (F64.of_Z 0, F64.of_Z 10) [] = Ok view ∧
  rows view = [] ∧
  heap w !!! 1%nat = view ∧
  top_row_metrics 1 w = (Ok tt, write w (metrics_row 0 0 "nan" F64.nan)).
Proof.
  intros view w.
  assert (H1 : filtered_df scenario (F64.of_Z 0, F64.of_Z 10) [] = Ok view)
    by reflexivity.
  assert (H2 : rows view = []) by reflexivity.
  assert (H3 : heap w !!! 1%nat = view) by reflexivity.
  split; [exact H1|]. split; [exact H2|]. split; [exact H3|].
  exact (empty_view_metrics scenario (F64.of_Z 0, F64.of_Z 10) [] view w 1%nat
           H1 H2 H3).
Defined.

(** C8.  On the Dataset of the scenario, the range [0, 6] and the markets A and
    B give the first two rows; the metrics row then shows 2 records, 2 distinct
    markets, the mean 3.0 (written [3.00]) and the maximum 5.0. *)
Theorem scenario_range_0_6 :
  let range := (F64.of_Z 0, F64.of_Z 6) in
  let selected := [CStr "A"; CStr "B"] in
  let view := {| columns := columns scenario; rows := firstn 2 (rows scenario) |} in
  let w := {| heap := [scenario]; cache := None; page := [] |} in
  filtered_df scenario range selected = Ok view ∧
  (distance ← getitem view "Distance"; series_mean distance) = Ok (F64.of_Z 3) ∧
  (distance ← getitem view "Distance"; series_max distance) = Ok (F64.of_Z 5) ∧
  (filtered ← apply_filters 0%nat range selected; top_row_metrics filtered) w
  = (Ok tt, {| heap := [scenario; view]; cache := None;
               page := metrics_row 2 2 "3.00" (F64.of_Z 5) |}).
Proof. vm_compute. repeat split; reflexivity. Qed.

(** ** The Loader *)

Lemma nth_set_cell_eq (pos : nat) (c : cell) (cells : list cell) :
  nth pos (set_cell pos c cells) NaN = c.
Proof.
  revert cells. induction pos as [|pos IH]; intros [|c' cells]; simpl; auto.
Qed.


Lemma cell_at_set_eq (pos i : nat) (c : cell) (cells : list cell) :
  cell_at pos (i, set_cell pos c cells) = c.
Proof. apply nth_set_cell_eq. Qed.


Lemma set_column_map (pos : nat) (f : row → cell) (rs : list row) :
  set_column pos rs (map f rs) = map (fun r => (r.1, set_cell pos (f r) r.2)) rs.
Proof.
  induction rs as [|[i cells] rs IH]; simpl; [reflexivity|]. now rewrite IH.
Qed.

Lemma store_last (h : list DataFrame) (old new : DataFrame) :
  <[length h := new]> (h ++ [old])%list = (h ++ [new])%list.
Proof.
  rewrite insert_app_r_alt by reflexivity. now rewrite Nat.sub_diag.
Qed.

Lemma lookup_last (h : list DataFrame) (df : DataFrame) :
  (h ++ [df])%list !!! length h = df.
Proof. now apply list_lookup_total_middle. Qed.

Section Loading.

Variable parse_number : string → option F64.t.
Variable os : os_state.

(** The run of [load_data] on a file that reads as a table with a
    [Distance] column. *)
Lemma load_data_table (raw : DataFrame) (pd : nat) (w : world) :
  csv_file os = Some (table raw) →
  column_position "Distance" (columns raw) = Some pd →
  load_data parse_number os w
  = (Ok (length (heap w)),
     {| heap := heap w ++ [coerced_frame parse_number pd raw];
        cache := cache w;
        page := page w ++ file_found_page os |}).
Proof.
  intros Hfile Hpd. unfold load_data. rewrite Hfile.
  unfold read_csv, setitem. run_M. rewrite lookup_last.
  unfold getitem. rewrite Hpd. cbn [heap cache page fst snd].
  unfold to_numeric_coerce. rewrite !length_map, Nat.eqb_refl.
  cbn [heap cache page fst snd].
  rewrite store_last, map_map, set_column_map, <- app_assoc. reflexivity.
Qed.

(** The run of [load_data] when there is no file. *)
Lemma load_data_absent (w : world) :
  csv_file os = None →
  load_data parse_number os w
  = (Ok (length (heap w)),
     {| heap := heap w ++ [empty_frame];
        cache := cache w;
        page := page w ++ firstn 3 (file_not_found_page os) |}).
Proof.
  intros Hfile. unfold load_data. rewrite Hfile. run_M.
  rewrite <- !app_assoc. reflexivity.
Qed.

End Loading.

Lemma lookup_map {A B : Type} (f : A → B) (l : list A) (i : nat) :
  map f l !! i = f <$> l !! i.
Proof.
  revert i. induction l as [|a l IH]; intros [|i]; simpl; auto.
Qed.

Section Session.

Variable parse_number : string → option F64.t.
Variable repr_float : F64.t → string.
Variable os : os_state.

Lemma rerun_absent (c : option (DataFrame * list element)) (ws : widgets) :
  csv_file os = None →
  c = None ∨ c = Some (empty_frame, firstn 3 (file_not_found_page os)) →
  rerun parse_number repr_float os c ws = file_not_found_state os.
Proof.
  intros Hfile [-> | ->]; unfold rerun, script, cache_data, mbind, M_bind;
    cbn [heap cache page].
  - rewrite load_data_absent by assumption. reflexivity.
  - reflexivity.
Qed.

Lemma session_from_absent (c : option (DataFrame * list element))
    (interactions : list widgets) (out : result unit * world) :
  csv_file os = None →
  c = None ∨ c = Some (empty_frame, firstn 3 (file_not_found_page os)) →
  In out (session_from parse_number repr_float os c interactions) →
  out = file_not_found_state os.
Proof.
  intros Hfile. revert c.
  induction interactions as [|ws rest IH]; intros c Hc; simpl; [tauto|].
  rewrite rerun_absent by assumption.
  intros [<- | Hin]; [reflexivity|].
  apply (IH _ (or_intror eq_refl) Hin).
Qed.

(** C4.  When the file is absent, [load_data] ends normally and returns an
    empty frame, having written where it looked, an error and the listing of
    the folder; and every pass of the session ends normally with a page that
    holds these three elements and the error banner, and nothing else: no
    metric, chart, table or download. *)
Theorem absent_file_error_state :
  csv_file os = None →
  (∀ w, load_data parse_number os w
        = (Ok (length (heap w)),
           {| heap := heap w ++ [empty_frame];
              cache := cache w;
              page := page w ++ firstn 3 (file_not_found_page os) |}) ∧
        empty ((heap w ++ [empty_frame])%list !!! length (heap w)) = true) ∧
  ∀ interactions out,
    In out (session parse_number repr_float os interactions) →
    out = file_not_found_state os.
Proof.
  intros Hfile. split.
  - intros w. split; [now apply load_data_absent|].
    now rewrite lookup_last.
  - intros interactions out. apply session_from_absent; auto.
Qed.

End Session.

Lemma absent_file_error_state_witness :
  csv_file (os_with None) = None ∧
  ∀ out,
    In out (session parse_decimal repr_exact (os_with None) [untouched; untouched]) →
    out = file_not_found_state (os_with None).
Proof.
  split; [reflexivity|].
  exact (proj2 (absent_file_error_state parse_decimal repr_exact (os_with None)
                  eq_refl) [untouched; untouched]).
Defined.

(** ** Coercion of the Distance column *)

Lemma leb_not_nan (x y : F64.t) : F64.leb x y = true → F64.is_nan y = false.
Proof. destruct y; [reflexivity | reflexivity | | reflexivity]. now destruct x. Qed.

(** The filter expression returns a view only on a Dataset. *)
Lemma filtered_df_is_dataset (df : DataFrame) (dist_range : F64.t * F64.t)
    (S : list cell) (view : DataFrame) :
  filtered_df df dist_range S = Ok view → is_dataset df = true.
Proof.
  unfold filtered_df, getitem, is_dataset, series_ge.
  destruct (column_position "Distance" (columns df)) as [pd|]; [|discriminate].
  rewrite result_bind_Ok.
  destruct (as_floats (map (cell_at pd) (rows df))) as [xs|e] eqn:Hfl;
    [|discriminate].
  apply as_floats_Ok_numeric in Hfl. rewrite forallb_map in Hfl.
  destruct (column_position "Market" (columns df)) as [pm|]; [intros _; exact Hfl|].
  repeat case_result; discriminate.
Qed.

(** No row of a view has a missing Distance. *)
Lemma view_distance_present (df : DataFrame) (dist_range : F64.t * F64.t)
    (S : list cell) (view : DataFrame) (r : row) :
  filtered_df df dist_range S = Ok view →
  In r (rows view) →
  In r (rows df) ∧
  ∃ d, field df "Distance" r = Some (CNum d) ∧ F64.is_nan d = false.
Proof.
  intros Hview. pose proof (filtered_df_is_dataset _ _ _ _ Hview) as Hds.
  destruct dist_range as [lo hi].
  rewrite filtered_df_dataset in Hview by assumption.
  injection Hview as <-. simpl. rewrite filter_In, row_in_view_spec.
  intros (Hr & d & m & Hd & _ & Hlo & _). split; [assumption|].
  exists d. split; [assumption|]. exact (leb_not_nan _ _ Hlo).
Qed.

Section Coercion.

Variable parse_number : string → option F64.t.
Variable os : os_state.

Lemma coerced_frame_row (raw : DataFrame) (pd i : nat) (r : row) :
  rows raw !! i = Some r →
  rows (coerced_frame parse_number pd raw) !! i
  = Some (r.1, set_cell pd (coerce parse_number (cell_at pd r)) r.2).
Proof. intros Hr. unfold coerced_frame. cbn [rows]. now rewrite lookup_map, Hr. Qed.

Lemma coerce_numeric (c : cell) : numeric (coerce parse_number c) = true.
Proof. destruct c as [x|t]; simpl; [reflexivity|]. now destruct (parse_number t). Qed.

(** What [load_data] returns for a table with a [Distance] and a [Market]
    column is a Dataset. *)
Lemma coerced_frame_is_dataset (raw : DataFrame) (pd pm : nat) :
  column_position "Distance" (columns raw) = Some pd →
  column_position "Market" (columns raw) = Some pm →
  is_dataset (coerced_frame parse_number pd raw) = true.
Proof.
  intros Hpd Hpm. unfold is_dataset, coerced_frame. cbn [columns rows].
  rewrite Hpd, Hpm, forallb_map. apply forallb_forall. intros r _.
  cbn [fst snd]. rewrite cell_at_set_eq. apply coerce_numeric.
Qed.


(** C10.  When the file reads as a table with a [Distance] column, a row
    whose [Distance] cell is a string that is no number is loaded with NaN
    as its Distance, and is in no view: whatever the range and the selection
    of markets (the defaults included), a view that the Filter Stage returns
    does not hold that row, and so is not the whole Dataset. *)
Theorem unparseable_distance_never_in_view (raw : DataFrame) (pd : nat)
    (w : world) :
  csv_file os = Some (table raw) →
  column_position "Distance" (columns raw) = Some pd →
  ∃ df,
    load_data parse_number os w
    = (Ok (length (heap w)),
       {| heap := heap w ++ [df]; cache := cache w;
          page := page w ++ file_found_page os |}) ∧
    ∀ i r t, rows raw !! i = Some r →
      cell_at pd r = CStr t → parse_number t = None →
      ∃ r', rows df !! i = Some r' ∧ r'.1 = r.1 ∧
            field df "Distance" r' = Some NaN ∧
            ∀ dist_range S view,
              filtered_df df dist_range S = Ok view →
              ¬ In r' (rows view) ∧ rows view ≠ rows df.
Proof.
  intros Hfile Hpd. exists (coerced_frame parse_number pd raw).
  split; [now apply load_data_table|].
  intros i r t Hr Hcell Hnone. eexists.
  split; [exact (coerced_frame_row raw pd i r Hr)|]. split; [reflexivity|].
  assert (Hnan : field (coerced_frame parse_number pd raw) "Distance"
                   (r.1, set_cell pd (coerce parse_number (cell_at pd r)) r.2)
                 = Some NaN).
  { unfold field. cbn [columns coerced_frame]. rewrite Hpd. cbn [mbind option_bind].
    rewrite cell_at_set_eq, Hcell. simpl. now rewrite Hnone. }
  split; [exact Hnan|].
  intros dist_range S view Hview.
  assert (Hout : ¬ In (r.1, set_cell pd (coerce parse_number (cell_at pd r)) r.2)
                   (rows view)).
  { intros Hin.
    destruct (view_distance_present _ _ _ _ _ Hview Hin) as (_ & d & Hd & Hd').
    rewrite Hnan in Hd. injection Hd as <-. discriminate. }
  split; [exact Hout|].
  intros Heq. apply Hout. rewrite Heq.
  apply (coerced_frame_row raw pd i r) in Hr.
  apply list_elem_of_In. eapply list_elem_of_lookup_2. exact Hr.
Qed.

End Coercion.



Lemma unparseable_distance_never_in_view_witness :
  let os := os_with (Some (table table_with_gap)) in
  csv_file os = Some (table table_with_gap) ∧
  column_position "Distance" (columns table_with_gap) = Some 0%nat ∧
  ∃ df,
    load_data parse_decimal os fresh
    = (Ok (length (heap fresh)),
       {| heap := heap fresh ++ [df]; cache := cache fresh;
          page := page fresh ++ file_found_page os |}) ∧
    ∀ i r t, rows table_with_gap !! i = Some r →
      cell_at 0 r = CStr t → parse_decimal t = None →
      ∃ r', rows df !! i = Some r' ∧ r'.1 = r.1 ∧
            field df "Distance" r' = Some NaN ∧
            ∀ dist_range S view,
              filtered_df df dist_range S = Ok view →
              ¬ In r' (rows view) ∧ rows view ≠ rows df.
Proof.
  intros os. split; [reflexivity|]. split; [reflexivity|].
  exact (unparseable_distance_never_in_view parse_decimal os table_with_gap 0 fresh
           eq_refl eq_refl).
Defined.

(** ** The store during a pass *)

Section Frame.

Context {A B : Type}.

Lemma keeps_ret (n : nat) (a : A) (Q : A → Prop) : Q a → keeps n (mret a) Q.
Proof. intros Ha w Hn. unfold mret, M_ret. simpl. auto. Qed.

Lemma keeps_lift (n : nat) (r : result A) : keeps n (lift r) (fun _ => True).
Proof. intros w Hn. unfold lift. simpl. repeat split; auto. now destruct r. Qed.

Lemma keeps_weaken (n : nat) (m : M A) (Q Q' : A → Prop) :
  (∀ a, Q a → Q' a) → keeps n m Q → keeps n m Q'.
Proof.
  intros HQ Hm w Hn. destruct (Hm w Hn) as (H1 & H2 & H3 & H4).
  repeat split; auto. destruct (m w).1; auto.
Qed.

Lemma keeps_bind (n : nat) (m : M A) (f : A → M B) (Q : A → Prop) (R : B → Prop) :
  keeps n m Q → (∀ a, Q a → keeps n (f a) R) → keeps n (m ≫= f) R.
Proof.
  intros Hm Hf w Hn. destruct (Hm w Hn) as (H1 & H2 & H3 & H4).
  unfold mbind, M_bind. destruct (m w) as [[a|e] w1]; simpl in *.
  - destruct (Hf a H4 w1 H1) as (G1 & G2 & G3 & G4).
    repeat split; auto.
    + intros l Hl. now rewrite G2, H2.
    + congruence.
  - auto.
Qed.

End Frame.

Lemma keeps_emit (n : nat) (e : element) : keeps n (emit e) (fun _ => True).
Proof. intros w Hn. unfold emit. simpl. auto. Qed.

Lemma keeps_deref (n : nat) (l : nat) : keeps n (deref l) (fun _ => True).
Proof. intros w Hn. unfold deref. simpl. auto. Qed.

(** A new object lies above every object there was. *)
Lemma keeps_alloc (n : nat) (df : DataFrame) :
  keeps n (alloc df) (fun l => (n ≤ l)%nat).
Proof.
  intros w Hn. unfold alloc. simpl. rewrite length_app. simpl.
  repeat split; auto; [lia|].
  intros l Hl. apply lookup_app_l. lia.
Qed.

(** An update in place touches one object. *)
Lemma keeps_store (n l : nat) (df : DataFrame) :
  (n ≤ l)%nat → keeps n (store l df) (fun _ => True).
Proof.
  intros Hl w Hn. unfold store. simpl. rewrite length_insert.
  repeat split; auto.
  intros l' Hl'. apply list_lookup_insert_ne. lia.
Qed.

Create HintDb frame.
#[local] Hint Resolve keeps_emit keeps_deref keeps_lift keeps_alloc keeps_store : frame.
#[local] Hint Extern 1 (keeps _ (mret _) _) => apply keeps_ret; exact I : frame.

(** Splits a sequence of operations of [M] into its steps. *)
Ltac frame :=
  repeat first
    [ solve [eauto with frame]
    | eapply keeps_weaken; [|solve [eauto with frame]]; cbv beta; solve [auto]
    | eapply keeps_bind; [solve [eauto with frame] | cbv beta; intros ? ?] ].

Lemma keeps_set_columns (n l : nat) (names : list string) :
  (n ≤ l)%nat → keeps n (set_columns l names) (fun _ => True).
Proof.
  intros Hl. unfold set_columns. eapply keeps_bind; [apply keeps_deref|].
  intros df _. destruct (_ =? _)%nat; frame.
Qed.

Lemma keeps_setitem (n l : nat) (name : string) (s : list cell) :
  (n ≤ l)%nat → keeps n (setitem l name s) (fun _ => True).
Proof.
  intros Hl. unfold setitem. eapply keeps_bind; [apply keeps_deref|].
  intros df _. destruct (_ =? _)%nat; [|frame].
  destruct (column_position name (columns df)); frame.
Qed.

#[local] Hint Resolve keeps_set_columns keeps_setitem : frame.

Section Stages.

Variable parse_number : string → option F64.t.
Variable repr_float : F64.t → string.
Variable os : os_state.

Lemma keeps_slider (n : nat) (label : string) (lo hi : F64.t)
    (value : F64.t * F64.t) (given : option (F64.t * F64.t)) :
  keeps n (slider label lo hi value given) (fun _ => True).
Proof. unfold slider. frame. Qed.

Lemma keeps_multiselect (n : nat) (label : string) (options dflt : list cell)
    (given : option (list cell)) :
  keeps n (multiselect label options dflt given) (fun _ => True).
Proof. unfold multiselect. frame. Qed.

Lemma keeps_selectbox (n : nat) (label : string) (options : list cell)
    (given : option cell) :
  keeps n (selectbox label options given) (fun _ => True).
Proof. unfold selectbox. frame. Qed.

#[local] Hint Resolve keeps_slider keeps_multiselect keeps_selectbox : frame.

Lemma keeps_sidebar_filters (n df : nat) (ws : widgets) :
  keeps n (sidebar_filters df ws) (fun _ => True).
Proof. unfold sidebar_filters. frame. Qed.

(** The filtered view is a new object. *)
Lemma keeps_apply_filters (n df : nat) (dist_range : F64.t * F64.t)
    (selected_markets : list cell) :
  keeps n (apply_filters df dist_range selected_markets) (fun l => (n ≤ l)%nat).
Proof. unfold apply_filters. frame. Qed.

Lemma keeps_top_row_metrics (n filtered : nat) :
  keeps n (top_row_metrics filtered) (fun _ => True).
Proof. unfold top_row_metrics. frame. Qed.

(** The only update in place of the dashboard, [market_counts.columns = ...],
    is on the frame that [reset_index] has just made. *)
Lemma keeps_middle_row_charts (n filtered : nat) :
  keeps n (middle_row_charts filtered) (fun _ => True).
Proof. unfold middle_row_charts. frame. Qed.

Lemma keeps_bottom_section (n df filtered : nat) (markets : list cell)
    (ws : widgets) :
  keeps n (bottom_section repr_float os df filtered markets ws) (fun _ => True).
Proof. unfold bottom_section. frame. Qed.

#[local] Hint Resolve keeps_sidebar_filters keeps_apply_filters keeps_top_row_metrics
  keeps_middle_row_charts keeps_bottom_section : frame.

Lemma keeps_dashboard (n df : nat) (ws : widgets) :
  keeps n (dashboard repr_float os df ws) (fun _ => True).
Proof.
  unfold dashboard.
  do 2 (eapply keeps_bind; [apply keeps_emit|]; intros _ _).
  eapply keeps_bind; [apply keeps_sidebar_filters|].
  intros [[dist_range markets] selected] _. frame.
Qed.

(** What the loader leaves at the start of a pass: an entry that was in the
    cache is still there, and the frame at location 0 is the cached one. *)
Lemma loader_start (c0 : option (DataFrame * list element)) :
  let start := cache_data (load_data parse_number os)
                 {| heap := []; cache := c0; page := [] |} in
  (∀ c, c0 = Some c → cache start.2 = Some c) ∧
  (∀ v written, cache start.2 = Some (v, written) → heap start.2 !! 0%nat = Some v) ∧
  (∀ l, start.1 = Ok l → (1 ≤ length (heap start.2))%nat).
Proof.
  unfold cache_data. cbn [heap cache page].
  destruct c0 as [[v written]|].
  - unfold alloc. simpl. repeat split; auto. now intros ? ? [= -> _].
  - destruct (csv_file os) as [[raw|e]|] eqn:Hfile.
    + destruct (column_position "Distance" (columns raw)) as [pd|] eqn:Hpd.
      * rewrite (load_data_table parse_number os raw pd) by assumption.
        simpl. repeat split; auto; try discriminate. now intros ? ? [= <- _].
      * unfold load_data. rewrite Hfile. unfold read_csv. run_M.
        unfold getitem. simpl. rewrite Hpd. simpl.
        repeat split; discriminate.
    + unfold load_data. rewrite Hfile. unfold read_csv. run_M.
      repeat split; discriminate.
    + rewrite load_data_absent by assumption.
      simpl. repeat split; auto; try discriminate. now intros ? ? [= <- _].
Qed.

(** C9.  In every rendering pass, whatever the cache held and whatever the
    widgets say: a Dataset that was in the cache is in the cache, unchanged,
    after the pass; the frame the loader handed to the pass is, at the end of
    the pass, still equal to the cached Dataset; the stages after the loader
    leave every object that existed before them as it was; and the filtered
    view is a new object. *)
Theorem dataset_never_mutated (c0 : option (DataFrame * list element))
    (ws : widgets) :
  let out := rerun parse_number repr_float os c0 ws in
  (∀ c, c0 = Some c → cache out.2 = Some c) ∧
  (∀ v written, cache out.2 = Some (v, written) → heap out.2 !! 0%nat = Some v) ∧
  (∀ df w l, (l < length (heap w))%nat →
     heap (dashboard repr_float os df ws w).2 !! l = heap w !! l ∧
     cache (dashboard repr_float os df ws w).2 = cache w) ∧
  (∀ df dist_range selected w l,
     (apply_filters df dist_range selected w).1 = Ok l →
     (length (heap w) ≤ l)%nat).
Proof.
  cbv zeta. split; [|split; [|split]].
  3:{ intros df w l Hl.
      destruct (keeps_dashboard (length (heap w)) df ws w (Nat.le_refl _))
        as (_ & H & Hc & _). auto. }
  3:{ intros df dist_range selected w l Hl.
      destruct (keeps_apply_filters (length (heap w)) df dist_range selected w
                  (Nat.le_refl _)) as (_ & _ & _ & H).
      now rewrite Hl in H. }
  all: destruct (loader_start c0) as (Hhit & Hobj & Hlen);
    change (rerun parse_number repr_float os c0 ws)
      with (match cache_data (load_data parse_number os)
                    {| heap := []; cache := c0; page := [] |} with
            | (Ok df, w1) =>
                (deref df ≫= λ d : DataFrame,
                   if empty d
                   then emit (st_error "Dataset 'nrdc_missing_anchors.csv' not found. Please ensure the file is in the same directory.")
                   else dashboard repr_float os df ws) w1
            | (Raise e, w1) => (Raise e, w1)
            end);
    destruct (cache_data _ _) as [[df|e] w1]; cbn [fst snd] in *; auto.
  all: assert (Hrest : keeps 1
         (deref df ≫= λ d : DataFrame,
            if empty d
            then emit (st_error "Dataset 'nrdc_missing_anchors.csv' not found. Please ensure the file is in the same directory.")
            else dashboard repr_float os df ws) (fun _ => True))
      by (eapply keeps_bind; [apply keeps_deref|]; intros d _;
          destruct (empty d); [apply keeps_emit|apply keeps_dashboard]).
  all: destruct (Hrest w1 (Hlen df eq_refl)) as (_ & Hsame & Hcache & _).
  - intros c Hc. rewrite Hcache. auto.
  - intros v written Hc. rewrite Hcache in Hc. rewrite Hsame by lia. eauto.
Qed.

End Stages.

Lemma dataset_never_mutated_witness :
  let os := os_with (Some (table scenario)) in
  let c := (scenario, file_found_page os) in
  let out := rerun parse_decimal repr_exact os (Some c) untouched in
  cache out.2 = Some c ∧ heap out.2 !! 0%nat = Some scenario.
Proof.
  intros os c out.
  destruct (dataset_never_mutated parse_decimal repr_exact os (Some c) untouched)
    as (Hcache & Hobject & _).
  split; [exact (Hcache c eq_refl)|].
  exact (Hobject scenario (file_found_page os) (Hcache c eq_refl)).
Defined.

(** ** The Export Stage *)

Section ExportStage.

Variable repr_float : F64.t → string.
Variable os : os_state.



End ExportStage.


(** The pass over [table_with_gap] with the widgets untouched: the default
    range and selection show two of the three rows. *)
Example default_filter_drops_the_gap :
  let os := os_with (Some (table table_with_gap)) in
  let out := rerun parse_decimal repr_exact os None untouched in
  out.1 = Ok tt ∧
  map fst (rows (heap out.2 !!! 0%nat)) = [0; 1; 2]%nat ∧
  map fst (rows (heap out.2 !!! 1%nat)) = [0; 2]%nat.
Proof. vm_compute. repeat split. Qed.

(** The pass over the scenario with every market deselected: it ends normally,
    the view has no row, and the metrics row shows 0, 0, [nan] and NaN. *)
Example empty_selection_pass :
  let os := os_with (Some (table scenario)) in
  let ws := {| slider_value := None; multiselect_value := Some [];
               selectbox_value := None |} in
  let out := rerun parse_decimal repr_exact os None ws in
  out.1 = Ok tt ∧
  rows (heap out.2 !!! 1%nat) = [] ∧
  firstn 5 (skipn 7 (page out.2)) = metrics_row 0 0 "nan" F64.nan.
Proof. vm_compute. repeat split. Qed.

(** The other scenario of the specification: the range [0, 10] and the market
    B give the one row of B, and its export is the header and one record. *)
Example scenario_market_B_export :
  let os := os_with (Some (table scenario)) in
  let view := {| columns := columns scenario; rows := [(1%nat, [CNum (F64.of_Z 5); CStr "B"])] |} in
  filtered_df scenario (F64.of_Z 0, F64.of_Z 10) [CStr "B"] = Ok view ∧
  to_csv repr_exact os view
  = "Distance,Market" ++ String LF ("5.0,B" ++ String LF EmptyString).
Proof. vm_compute. split; reflexivity. Qed.

(** * Further properties of the stages *)

(** ** The order of binary64 *)

Ltac order_cases :=
  repeat match goal with
  | H : context [PosDef.Pos.compare_cont Eq ?a ?b] |- _ =>
      change (PosDef.Pos.compare_cont Eq a b) with (Pos.compare a b) in H
  | |- context [PosDef.Pos.compare_cont Eq ?a ?b] =>
      change (PosDef.Pos.compare_cont Eq a b) with (Pos.compare a b)
  end;
  repeat match goal with
  | |- context [Z.compare ?a ?b] => destruct (Z.compare_spec a b)
  | H : context [Z.compare ?a ?b] |- _ => destruct (Z.compare_spec a b)
  | |- context [Pos.compare ?a ?b] => destruct (Pos.compare_spec a b)
  | H : context [Pos.compare ?a ?b] |- _ => destruct (Pos.compare_spec a b)
  end.

(** Decides a fact about comparisons by the cases of the operands. *)
Ltac float_cases :=
  unfold F64.leb, F64.ltb, F64.eqb, F64.geb, F64.is_nan, F64.t,
    SFleb, SFltb, SFeqb, SFcompare;
  repeat match goal with x : spec_float |- _ => destruct x as [?|?| |? ? ?] end;
  try congruence; try reflexivity;
  repeat match goal with s : bool |- _ => destruct s end;
  try congruence; try reflexivity;
  intros; order_cases; simpl in *; try congruence; try reflexivity; try lia.

Lemma leb_trans (x y z : spec_float) :
  F64.leb x y = true → F64.leb y z = true → F64.leb x z = true.
Proof. float_cases. Qed.

Lemma leb_refl (x : spec_float) : F64.is_nan x = false → F64.leb x x = true.
Proof. float_cases. Qed.

Lemma ltb_leb (x y : spec_float) : F64.ltb x y = true → F64.leb x y = true.
Proof. float_cases. Qed.

Lemma not_ltb_leb (x y : spec_float) :
  F64.is_nan x = false → F64.is_nan y = false →
  F64.ltb y x = false → F64.leb x y = true.
Proof. float_cases. Qed.

Lemma leb_not_nan_l (x y : spec_float) : F64.leb x y = true → F64.is_nan x = false.
Proof. float_cases. Qed.

Lemma eqb_refl (x : spec_float) : F64.is_nan x = false → F64.eqb x x = true.
Proof. float_cases. Qed.

Lemma eqb_sym (x y : spec_float) : F64.eqb x y = F64.eqb y x.
Proof. float_cases. Qed.

Lemma eqb_trans (x y z : spec_float) :
  F64.eqb x y = true → F64.eqb y z = true → F64.eqb x z = true.
Proof. float_cases. Qed.

Lemma eqb_not_nan (x y : spec_float) :
  F64.eqb x y = true → F64.is_nan x = false ∧ F64.is_nan y = false.
Proof. intros H. split; revert H; float_cases. Qed.

(** ** The bounds of the slider (lines 44-45) *)

Lemma In_dropna (x : F64.t) (xs : list F64.t) :
  In x (dropna xs) ↔ In x xs ∧ F64.is_nan x = false.
Proof.
  unfold dropna. rewrite filter_In, negb_true_iff. reflexivity.
Qed.

Lemma fmin_cases (a y : F64.t) :
  F64.is_nan a = false → F64.is_nan y = false →
  (fmin a y = a ∨ fmin a y = y) ∧
  F64.leb (fmin a y) a = true ∧ F64.leb (fmin a y) y = true.
Proof.
  intros Ha Hy. unfold fmin. destruct (F64.ltb y a) eqn:E.
  - split; [now right|]. split; [now apply ltb_leb | now apply leb_refl].
  - split; [now left|]. split; [now apply leb_refl | now apply not_ltb_leb].
Qed.

Lemma fmax_cases (a y : F64.t) :
  F64.is_nan a = false → F64.is_nan y = false →
  (fmax a y = a ∨ fmax a y = y) ∧
  F64.leb a (fmax a y) = true ∧ F64.leb y (fmax a y) = true.
Proof.
  intros Ha Hy. unfold fmax. destruct (F64.ltb a y) eqn:E.
  - split; [now right|]. split; [now apply ltb_leb | now apply leb_refl].
  - split; [now left|]. split; [now apply leb_refl | now apply not_ltb_leb].
Qed.

Lemma fold_fmin_least (l : list F64.t) (a : F64.t) :
  F64.is_nan a = false → (∀ x, In x l → F64.is_nan x = false) →
  In (fold_left fmin l a) (a :: l) ∧
  ∀ x, In x (a :: l) → F64.leb (fold_left fmin l a) x = true.
Proof.
  revert a. induction l as [|y l IH]; intros a Ha Hl; simpl.
  - split; [now left|]. intros x [<- | []]. now apply leb_refl.
  - assert (Hy : F64.is_nan y = false) by (apply Hl; now left).
    destruct (fmin_cases a y Ha Hy) as (Hpick & Hle_a & Hle_y).
    assert (Hm : F64.is_nan (fmin a y) = false) by (destruct Hpick as [-> | ->]; assumption).
    destruct (IH (fmin a y) Hm (fun x Hx => Hl x (or_intror Hx))) as (Hin & Hleast).
    split.
    + destruct Hin as [Hin | Hin]; [|now right; right].
      rewrite <- Hin. destruct Hpick as [-> | ->]; [now left | now right; left].
    + intros x [<- | [<- | Hx]].
      * apply (leb_trans _ (fmin a y)); [apply Hleast; now left | assumption].
      * apply (leb_trans _ (fmin a y)); [apply Hleast; now left | assumption].
      * apply Hleast. now right.
Qed.

Lemma fold_fmax_greatest (l : list F64.t) (a : F64.t) :
  F64.is_nan a = false → (∀ x, In x l → F64.is_nan x = false) →
  In (fold_left fmax l a) (a :: l) ∧
  ∀ x, In x (a :: l) → F64.leb x (fold_left fmax l a) = true.
Proof.
  revert a. induction l as [|y l IH]; intros a Ha Hl; simpl.
  - split; [now left|]. intros x [<- | []]. now apply leb_refl.
  - assert (Hy : F64.is_nan y = false) by (apply Hl; now left).
    destruct (fmax_cases a y Ha Hy) as (Hpick & Hle_a & Hle_y).
    assert (Hm : F64.is_nan (fmax a y) = false) by (destruct Hpick as [-> | ->]; assumption).
    destruct (IH (fmax a y) Hm (fun x Hx => Hl x (or_intror Hx))) as (Hin & Hgreatest).
    split.
    + destruct Hin as [Hin | Hin]; [|now right; right].
      rewrite <- Hin. destruct Hpick as [-> | ->]; [now left | now right; left].
    + intros x [<- | [<- | Hx]].
      * apply (leb_trans _ (fmax a y)); [assumption | apply Hgreatest; now left].
      * apply (leb_trans _ (fmax a y)); [assumption | apply Hgreatest; now left].
      * apply Hgreatest. now right.
Qed.

(** A reduction by [fmin] is NaN when every value is, and otherwise one of the
    values that are not NaN, below all of them. *)
Lemma reduce_fmin_spec (xs : list F64.t) :
  (dropna xs = [] ∧ reduce fmin xs = F64.nan) ∨
  (In (reduce fmin xs) (dropna xs) ∧
   ∀ x, In x (dropna xs) → F64.leb (reduce fmin xs) x = true).
Proof.
  unfold reduce. destruct (dropna xs) as [|a l] eqn:E; [now left|right].
  assert (Hall : ∀ x, In x (a :: l) → F64.is_nan x = false)
    by (intros x Hx; rewrite <- E in Hx; now apply In_dropna in Hx).
  apply fold_fmin_least; [apply Hall; now left|].
  intros x Hx. apply Hall. now right.
Qed.

Lemma reduce_fmax_spec (xs : list F64.t) :
  (dropna xs = [] ∧ reduce fmax xs = F64.nan) ∨
  (In (reduce fmax xs) (dropna xs) ∧
   ∀ x, In x (dropna xs) → F64.leb x (reduce fmax xs) = true).
Proof.
  unfold reduce. destruct (dropna xs) as [|a l] eqn:E; [now left|right].
  assert (Hall : ∀ x, In x (a :: l) → F64.is_nan x = false)
    by (intros x Hx; rewrite <- E in Hx; now apply In_dropna in Hx).
  apply fold_fmax_greatest; [apply Hall; now left|].
  intros x Hx. apply Hall. now right.
Qed.

(** What a successful reduction of the [Distance] column was computed from. *)
Lemma distance_reduction (df : DataFrame) (f : F64.t → F64.t → F64.t) (v : F64.t) :
  (distance ← getitem df "Distance"; xs ← as_floats distance; Ok (reduce f xs)) = Ok v →
  ∃ pd, column_position "Distance" (columns df) = Some pd ∧
        forallb (fun r => numeric (cell_at pd r)) (rows df) = true ∧
        v = reduce f (map (fun r => float_of (cell_at pd r)) (rows df)).
Proof.
  unfold getitem.
  destruct (column_position "Distance" (columns df)) as [pd|]; [|discriminate].
  rewrite result_bind_Ok.
  destruct (as_floats (map (cell_at pd) (rows df))) as [xs|e] eqn:E; [|discriminate].
  pose proof (as_floats_Ok_numeric _ _ E) as Hnum.
  rewrite (as_floats_numeric _ Hnum) in E. injection E as <-.
  rewrite result_bind_Ok. intros [= <-]. exists pd.
  rewrite forallb_map in Hnum. rewrite map_map. auto.
Qed.

Lemma has_distance_spec (df : DataFrame) (pd : nat) (r : row) :
  column_position "Distance" (columns df) = Some pd →
  has_distance df r = true ↔ ∃ d, cell_at pd r = CNum d ∧ F64.is_nan d = false.
Proof.
  intros Hpd. unfold has_distance, field. rewrite Hpd. simpl. split.
  - destruct (cell_at pd r) as [d|t]; simpl; [|discriminate].
    rewrite negb_true_iff. eauto.
  - intros (d & -> & Hd). simpl. now rewrite Hd.
Qed.

Lemma In_distances (df : DataFrame) (pd : nat) (x : F64.t) :
  forallb (fun r => numeric (cell_at pd r)) (rows df) = true →
  In x (dropna (map (fun r => float_of (cell_at pd r)) (rows df))) ↔
  ∃ r, In r (rows df) ∧ cell_at pd r = CNum x ∧ F64.is_nan x = false.
Proof.
  intros Hnum. rewrite forallb_forall in Hnum.
  rewrite In_dropna, in_map_iff. split.
  - intros [(r & <- & Hr) Hx]. exists r. specialize (Hnum r Hr).
    destruct (cell_at pd r); [auto | discriminate].
  - intros (r & Hr & Hc & Hx). split; [|assumption].
    exists r. now rewrite Hc.
Qed.

(** X1.  When lines 44-45 succeed, the bounds they give to the slider enclose
    every Distance that is not missing; when some Distance is not missing,
    the lower bound is at most the upper bound and both are Distances of rows
    of the Dataset; when every Distance is missing (or there is no row), both
    bounds are NaN. *)
Theorem slider_bounds (df : DataFrame) (lo hi : F64.t) :
  min_dist df = Ok lo → max_dist df = Ok hi →
  (∀ r, In r (rows df) → has_distance df r = true →
     ∃ d, field df "Distance" r = Some (CNum d) ∧
          F64.leb lo d = true ∧ F64.leb d hi = true) ∧
  ((∃ r, In r (rows df) ∧ has_distance df r = true) →
     F64.leb lo hi = true ∧
     (∃ r, In r (rows df) ∧ field df "Distance" r = Some (CNum lo)) ∧
     (∃ r, In r (rows df) ∧ field df "Distance" r = Some (CNum hi))) ∧
  ((∀ r, In r (rows df) → has_distance df r = false) →
     lo = F64.nan ∧ hi = F64.nan).
Proof.
  intros Hlo Hhi.
  apply distance_reduction in Hlo as (pd & Hpd & Hnum & ->).
  apply distance_reduction in Hhi as (pd' & Hpd' & _ & ->).
  rewrite Hpd in Hpd'. injection Hpd' as <-.
  set (xs := map (fun r => float_of (cell_at pd r)) (rows df)).
  assert (Hfield : ∀ r, field df "Distance" r = Some (cell_at pd r))
    by (intros r; unfold field; now rewrite Hpd).
  destruct (reduce_fmin_spec xs) as [[Hnone Hmin] | [Hmin_in Hmin]];
    destruct (reduce_fmax_spec xs) as [[Hnone' Hmax] | [Hmax_in Hmax]];
    try (rewrite Hnone in Hmax_in; destruct Hmax_in);
    try (rewrite Hnone' in Hmin_in; destruct Hmin_in).
  - (* no Distance that is not missing *)
    assert (Hno : ∀ r, In r (rows df) → has_distance df r = true → False).
    { intros r Hr Hhas. apply (has_distance_spec df pd r Hpd) in Hhas as (d & Hc & Hd).
      assert (Hin : In d (dropna xs)) by (apply In_distances; eauto).
      now rewrite Hnone in Hin. }
    split; [intros r Hr Hhas; destruct (Hno r Hr Hhas)|].
    split; [intros (r & Hr & Hhas); destruct (Hno r Hr Hhas)|].
    intros _. now rewrite Hmin, Hmax.
  - split; [|split].
    + intros r Hr Hhas.
      apply (has_distance_spec df pd r Hpd) in Hhas as (d & Hc & Hd).
      exists d. rewrite Hfield, Hc. split; [reflexivity|].
      assert (Hin : In d (dropna xs)) by (apply In_distances; eauto). auto.
    + intros _. split; [now apply Hmin|].
      apply In_distances in Hmin_in as (r & Hr & Hc & _); [|assumption].
      apply In_distances in Hmax_in as (r' & Hr' & Hc' & _); [|assumption].
      split; [exists r | exists r']; rewrite Hfield; split; congruence.
    + intros Hall. exfalso.
      apply In_distances in Hmin_in as (r & Hr & Hc & Hx); [|assumption].
      specialize (Hall r Hr).
      assert (Hhas : has_distance df r = true)
        by (apply (has_distance_spec df pd r Hpd); eauto).
      congruence.
Qed.

Lemma slider_bounds_witness :
  min_dist scenario = Ok (F64.of_Z 1) ∧ max_dist scenario = Ok (F64.of_Z 9) ∧
  F64.leb (F64.of_Z 1) (F64.of_Z 9) = true.
Proof.
  assert (Hlo : min_dist scenario = Ok (F64.of_Z 1)) by reflexivity.
  assert (Hhi : max_dist scenario = Ok (F64.of_Z 9)) by reflexivity.
  split; [exact Hlo|]. split; [exact Hhi|].
  refine (proj1 (proj1 (proj2 (slider_bounds scenario _ _ Hlo Hhi)) _)).
  exists (0%nat, [CNum (F64.of_Z 1); CStr "A"]). split; [now left | reflexivity].
Defined.

(** ** Distinct values (line 55, line 72, line 82) *)

Lemma cell_same_refl (c : cell) : cell_same c c = true.
Proof.
  unfold cell_same. destruct c as [x|t]; simpl.
  - destruct (F64.is_nan x) eqn:E; [apply orb_true_r|].
    now rewrite eqb_refl.
  - now rewrite String.eqb_refl.
Qed.

Lemma cell_same_sym (a b : cell) : cell_same a b = cell_same b a.
Proof.
  unfold cell_same. destruct a as [x|t], b as [y|u]; simpl;
    rewrite ?andb_false_r; try reflexivity.
  - now rewrite eqb_sym, (andb_comm (F64.is_nan x)).
  - now rewrite String.eqb_sym.
Qed.

Lemma cell_same_trans (a b c : cell) :
  cell_same a b = true → cell_same b c = true → cell_same a c = true.
Proof.
  unfold cell_same. destruct a as [x|t], b as [y|u], c as [z|v]; simpl;
    rewrite ?andb_false_r, ?orb_false_r; try discriminate.
  - rewrite !orb_true_iff, !andb_true_iff.
    intros [H1 | [H1 H1']] [H2 | [H2 H2']].
    + left. eapply eqb_trans; eassumption.
    + apply eqb_not_nan in H1 as [_ H1]. congruence.
    + apply eqb_not_nan in H2 as [H2 _]. congruence.
    + now right.
  - rewrite !String.eqb_eq. congruence.
Qed.

Lemma cell_same_kind (a b : cell) : cell_same a b = true → numeric a = numeric b.
Proof.
  unfold cell_same. destruct a, b; simpl; rewrite ?andb_false_r; auto; discriminate.
Qed.

Lemma seen_same (c c' : cell) (seen : list cell) :
  cell_same c c' = true →
  existsb (cell_same c) seen = existsb (cell_same c') seen.
Proof.
  intros Hcc. induction seen as [|u seen IH]; simpl; [reflexivity|].
  rewrite IH. f_equal.
  destruct (cell_same c u) eqn:E1, (cell_same c' u) eqn:E2; try reflexivity.
  - rewrite cell_same_sym in Hcc.
    now rewrite (cell_same_trans _ _ _ Hcc E1) in E2.
  - now rewrite (cell_same_trans _ _ _ Hcc E2) in E1.
Qed.

(** Every value kept by [unique] is a value of the Series that was not seen
    before. *)
Lemma unique_acc_sound (seen s : list cell) (c : cell) :
  In c (unique_acc seen s) → In c s ∧ existsb (cell_same c) seen = false.
Proof.
  revert seen. induction s as [|a s IH]; intros seen; simpl; [tauto|].
  destruct (existsb (cell_same a) seen) eqn:E.
  - intros Hin. destruct (IH _ Hin). auto.
  - intros [<- | Hin]; [auto|].
    destruct (IH _ Hin) as [H1 H2]. simpl in H2.
    apply orb_false_iff in H2 as [_ H2]. auto.
Qed.

(** Every value of the Series was seen before or is the same as a value
    kept. *)
Lemma unique_acc_complete (seen s : list cell) (c : cell) :
  In c s →
  existsb (cell_same c) seen = true ∨
  ∃ u, In u (unique_acc seen s) ∧ cell_same c u = true.
Proof.
  revert seen. induction s as [|a s IH]; intros seen; simpl; [tauto|].
  destruct (existsb (cell_same a) seen) eqn:E.
  - intros [<- | Hin]; [now left | now apply IH].
  - intros [<- | Hin].
    + right. exists a. split; [now left | apply cell_same_refl].
    + destruct (IH (a :: seen) Hin) as [Hseen | (u & Hu & Hsame)].
      * simpl in Hseen. apply orb_true_iff in Hseen as [Ha | Hseen]; [|now left].
        right. exists a. split; [now left | assumption].
      * right. exists u. split; [now right | assumption].
Qed.

(** The values kept are different from one another. *)
Lemma unique_acc_distinct (seen s : list cell) :
  ForallOrdPairs (fun a b => cell_same a b = false) (unique_acc seen s).
Proof.
  revert seen. induction s as [|a s IH]; intros seen; simpl; [constructor|].
  destruct (existsb (cell_same a) seen); [apply IH|].
  constructor; [|apply IH].
  apply Forall_forall. intros u Hu. apply list_elem_of_In in Hu.
  apply unique_acc_sound in Hu as [_ Hu]. simpl in Hu.
  apply orb_false_iff in Hu as [Hu _]. now rewrite cell_same_sym.
Qed.

Lemma In_unique (s : list cell) (c : cell) : In c (unique s) → In c s.
Proof. intros H. now apply unique_acc_sound in H. Qed.

Lemma unique_covers (s : list cell) (c : cell) :
  In c s → ∃ u, In u (unique s) ∧ cell_same c u = true.
Proof.
  intros H. destruct (unique_acc_complete [] s c H) as [Hno | Hu];
    [discriminate | assumption].
Qed.

Lemma length_unique_acc (seen s : list cell) :
  (length (unique_acc seen s) ≤ length s)%nat.
Proof.
  revert seen. induction s as [|a s IH]; intros seen; simpl; [lia|].
  destruct (existsb _ _); [specialize (IH seen) | specialize (IH (a :: seen))];
    simpl; lia.
Qed.

(** ** The order of strings *)

Lemma ascii_compare_Lt_trans (a b c : ascii) :
  Ascii.compare a b = Lt → Ascii.compare b c = Lt → Ascii.compare a c = Lt.
Proof.
  unfold Ascii.compare. rewrite !N.compare_lt_iff. apply N.lt_trans.
Qed.

Lemma string_compare_Lt_trans (a b c : string) :
  String.compare a b = Lt → String.compare b c = Lt → String.compare a c = Lt.
Proof.
  revert b c. induction a as [|x a IH]; intros [|y b] [|z c]; simpl;
    try discriminate; try reflexivity.
  destruct (Ascii.compare x y) eqn:Exy; try discriminate.
  - apply Ascii.compare_eq_iff in Exy as ->.
    destruct (Ascii.compare y z); try discriminate; [apply IH | reflexivity].
  - intros _. destruct (Ascii.compare y z) eqn:Eyz; try discriminate.
    + apply Ascii.compare_eq_iff in Eyz as <-. now rewrite Exy.
    + now rewrite (ascii_compare_Lt_trans _ _ _ Exy Eyz).
Qed.

Lemma str_lt_trans (a b c : string) : str_lt a b → str_lt b c → str_lt a c.
Proof.
  unfold str_lt, String.ltb. intros Hab Hbc.
  destruct (String.compare a b) eqn:E1; try discriminate.
  destruct (String.compare b c) eqn:E2; try discriminate.
  now rewrite (string_compare_Lt_trans _ _ _ E1 E2).
Qed.

Lemma str_lt_asym (a b : string) : str_lt a b → String.ltb b a = false.
Proof.
  unfold str_lt, String.ltb. rewrite (String.compare_antisym a b).
  now destruct (String.compare b a).
Qed.

Lemma str_lt_total (a b : string) : String.ltb b a = false → a ≠ b → str_lt a b.
Proof.
  unfold str_lt, String.ltb. rewrite (String.compare_antisym a b).
  destruct (String.compare b a) eqn:E; simpl; try discriminate; auto.
  intros _ Hne. apply String.compare_eq_iff in E. congruence.
Qed.

(** ** Sorting (line 55) *)

Lemma cell_lt_same_kind (a b : cell) :
  numeric a = numeric b → ∃ v, cell_lt a b = Ok v.
Proof. destruct a, b; simpl; try discriminate; eauto. Qed.

Lemma cell_lt_Ok_kind (a b : cell) (v : bool) :
  cell_lt a b = Ok v → numeric a = numeric b.
Proof. destruct a, b; simpl; try discriminate; auto. Qed.

Lemma cell_lt_other_kind (a b : cell) :
  numeric a ≠ numeric b → cell_lt a b = Raise TypeError.
Proof. destruct a, b; simpl; congruence. Qed.

Lemma sorted_insert_perm (x : cell) (l l' : list cell) :
  sorted_insert x l = Ok l' → Permutation (x :: l) l'.
Proof.
  revert l'. induction l as [|y l IH]; intros l'; simpl.
  - intros [= <-]. reflexivity.
  - destruct (cell_lt y x) as [[|]|e]; simpl; try discriminate.
    + destruct (sorted_insert x l) as [l''|e]; simpl; [|discriminate].
      intros [= <-]. rewrite perm_swap. constructor. now apply IH.
    + intros [= <-]. reflexivity.
Qed.

Lemma sorted_perm (l s : list cell) : sorted l = Ok s → Permutation l s.
Proof.
  revert s. induction l as [|x l IH]; intros s; simpl.
  - intros [= <-]. reflexivity.
  - destruct (sorted l) as [s'|e]; simpl; [|discriminate].
    intros H. apply sorted_insert_perm in H. rewrite <- H.
    constructor. now apply IH.
Qed.

Lemma sorted_insert_same_kind (x : cell) (l : list cell) :
  (∀ y, In y l → numeric y = numeric x) → ∃ l', sorted_insert x l = Ok l'.
Proof.
  induction l as [|y l IH]; intros Hl; simpl; [eauto|].
  destruct (cell_lt_same_kind y x (Hl y (or_introl eq_refl))) as [v ->]. simpl.
  destruct v; [|eauto].
  destruct IH as [l' ->]; [intros z Hz; apply Hl; now right|]. simpl. eauto.
Qed.

Lemma sorted_insert_head_kind (x y : cell) (l l' : list cell) :
  sorted_insert x (y :: l) = Ok l' → numeric y = numeric x.
Proof.
  simpl. destruct (cell_lt y x) as [v|e] eqn:E; [|discriminate].
  intros _. exact (cell_lt_Ok_kind _ _ _ E).
Qed.

Lemma sorted_insert_raises (x : cell) (l : list cell) (e : exn) :
  sorted_insert x l = Raise e → e = TypeError.
Proof.
  induction l as [|y l IH]; simpl; [discriminate|].
  destruct y, x; simpl; try (now intros [= <-]).
  - destruct (F64.ltb _ _); [|discriminate].
    destruct (sorted_insert _ l); [discriminate|]. intros [= <-]. now apply IH.
  - destruct (String.ltb _ _); [|discriminate].
    destruct (sorted_insert _ l); [discriminate|]. intros [= <-]. now apply IH.
Qed.

Lemma sorted_raises (l : list cell) (e : exn) : sorted l = Raise e → e = TypeError.
Proof.
  induction l as [|x l IH]; simpl; [discriminate|].
  destruct (sorted l) as [s|e']; simpl.
  - apply sorted_insert_raises.
  - intros [= <-]. now apply IH.
Qed.

(** [sorted] returns a list exactly on the lists of one kind. *)
Lemma sorted_Ok_one_kind (l s : list cell) :
  sorted l = Ok s → ∀ a b, In a l → In b l → numeric a = numeric b.
Proof.
  revert s. induction l as [|x l IH]; intros s; simpl; [tauto|].
  destruct (sorted l) as [s'|e] eqn:E; simpl; [|discriminate].
  intros Hins.
  assert (Hx : ∀ a, In a l → numeric a = numeric x).
  { intros a Ha. pose proof (sorted_perm _ _ E) as Hperm.
    destruct s' as [|y s'].
    - apply Permutation_sym, Permutation_nil in Hperm. subst. destruct Ha.
    - apply sorted_insert_head_kind in Hins. rewrite <- Hins.
      apply (IH _ eq_refl); [assumption|].
      apply (Permutation_in _ (Permutation_sym Hperm)). now left. }
  intros a b [<- | Ha] [<- | Hb]; auto.
  - symmetry. auto.
  - now apply (IH _ eq_refl).
Qed.

Lemma sorted_one_kind_Ok (l : list cell) :
  (∀ a b, In a l → In b l → numeric a = numeric b) → ∃ s, sorted l = Ok s.
Proof.
  induction l as [|x l IH]; intros Hl; simpl; [eauto|].
  destruct IH as [s Hs]; [intros a b Ha Hb; apply Hl; now right|].
  rewrite Hs. simpl. apply sorted_insert_same_kind.
  intros y Hy. apply Hl; [right | now left].
  apply (Permutation_in _ (Permutation_sym (sorted_perm _ _ Hs))), Hy.
Qed.

Lemma mixed_kinds_spec (l : list cell) :
  mixed_kinds l = true ↔ has_number l ∧ has_string l.
Proof.
  unfold mixed_kinds, has_number, has_string.
  rewrite andb_true_iff, !existsb_exists. split.
  - intros [([x|t] & Hx & Hnum) ([y|u] & Hy & Hstr)]; try discriminate. eauto.
  - intros [(x & Hx) (t & Ht)].
    split; [exists (CNum x) | exists (CStr t)]; auto.
Qed.

Lemma not_mixed_one_kind (l : list cell) :
  mixed_kinds l = false → ∀ a b, In a l → In b l → numeric a = numeric b.
Proof.
  intros Hmix a b Ha Hb.
  destruct a as [x|t], b as [y|u]; try reflexivity; exfalso;
    assert (mixed_kinds l = true) by (apply mixed_kinds_spec; split; eexists; eauto);
    congruence.
Qed.

Lemma sorted_spec (l : list cell) :
  if mixed_kinds l then sorted l = Raise TypeError
  else ∃ s, sorted l = Ok s ∧ Permutation l s.
Proof.
  destruct (mixed_kinds l) eqn:Hmix.
  - destruct (sorted l) as [s|e] eqn:E; [|now rewrite (sorted_raises _ _ E)].
    apply mixed_kinds_spec in Hmix as [(x & Hx) (t & Ht)].
    now pose proof (sorted_Ok_one_kind _ _ E _ _ Hx Ht).
  - destruct (sorted_one_kind_Ok l (not_mixed_one_kind l Hmix)) as [s Hs].
    exists s. split; [assumption | now apply sorted_perm].
Qed.

Lemma str_not_after_trans (a b c : string) :
  String.ltb b a = false → String.ltb c b = false → String.ltb c a = false.
Proof.
  intros Hab Hbc. destruct (String.ltb c a) eqn:Hca; [|reflexivity].
  destruct (string_dec a b) as [<- | Hne]; [congruence|].
  pose proof (str_lt_trans _ _ _ Hca (str_lt_total _ _ Hab Hne)) as Hcb.
  unfold str_lt in Hcb. congruence.
Qed.

Lemma sorted_insert_strings (x : cell) (l l' : list cell) :
  numeric x = false → (∀ y, In y l → numeric y = false) →
  StronglySorted not_after l →
  sorted_insert x l = Ok l' → StronglySorted not_after l'.
Proof.
  intros Hx. revert l'. induction l as [|y l IH]; intros l' Hl Hsorted; simpl.
  - intros [= <-]. repeat constructor.
  - assert (Hy : numeric y = false) by (apply Hl; now left).
    destruct x as [?|t]; [discriminate|]. destruct y as [?|u]; [discriminate|].
    simpl. inversion Hsorted as [|? ? Htail Hhead]; subst.
    destruct (String.ltb u t) eqn:Hlt.
    + destruct (sorted_insert (CStr t) l) as [l''|e] eqn:E; simpl; [|discriminate].
      intros [= <-]. constructor.
      * apply IH; auto. intros z Hz. apply Hl. now right.
      * apply Forall_forall. intros z Hz. apply list_elem_of_In in Hz.
        apply (Permutation_in _ (Permutation_sym (sorted_insert_perm _ _ _ E))) in Hz.
        destruct Hz as [<- | Hz].
        -- unfold not_after. simpl. now apply str_lt_asym.
        -- rewrite Forall_forall in Hhead. apply Hhead. now apply list_elem_of_In.
    + intros [= <-]. constructor; [assumption|].
      constructor; [exact Hlt|].
      rewrite Forall_forall in Hhead |- *. intros z Hz.
      specialize (Hhead z Hz). unfold not_after in *. simpl in *.
      eapply str_not_after_trans; eassumption.
Qed.

Lemma sorted_strings (l s : list cell) :
  (∀ y, In y l → numeric y = false) →
  sorted l = Ok s → StronglySorted not_after s.
Proof.
  revert s. induction l as [|x l IH]; intros s Hl; simpl.
  - intros [= <-]. constructor.
  - destruct (sorted l) as [s'|e] eqn:E; simpl; [|discriminate].
    apply sorted_insert_strings.
    + apply Hl. now left.
    + intros y Hy. apply Hl. right.
      apply (Permutation_in _ (Permutation_sym (sorted_perm _ _ E))), Hy.
    + apply IH; [|reflexivity]. intros y Hy. apply Hl. now right.
Qed.

Lemma strings_as_labels (l : list cell) :
  (∀ y, In y l → numeric y = false) → l = map CStr (map label_of l).
Proof.
  induction l as [|c l IH]; intros Hl; simpl; [reflexivity|].
  rewrite <- IH by (intros y Hy; apply Hl; now right).
  specialize (Hl c (or_introl eq_refl)). destruct c; [discriminate | reflexivity].
Qed.

Lemma distinct_NoDup (l : list cell) :
  ForallOrdPairs (fun a b => cell_same a b = false) l → List.NoDup l.
Proof.
  induction 1 as [|a l Ha _ IH]; constructor; [|assumption].
  intros Hin. rewrite Forall_forall in Ha.
  specialize (Ha a (proj2 (list_elem_of_In _ _) Hin)).
  now rewrite cell_same_refl in Ha.
Qed.

Lemma StronglySorted_map {A B : Type} (R : B → B → Prop) (f : A → B) (l : list A) :
  StronglySorted (fun a b => R (f a) (f b)) l → StronglySorted R (map f l).
Proof.
  induction 1 as [|a l _ IH Hhead]; simpl; constructor; [assumption|].
  rewrite List.Forall_forall in Hhead. apply List.Forall_forall.
  intros b Hb. apply in_map_iff in Hb as (c & <- & Hc). auto.
Qed.

Lemma NoDup_labels (l : list cell) :
  (∀ y, In y l → numeric y = false) → List.NoDup l → List.NoDup (map label_of l).
Proof.
  intros Hl. induction 1 as [|c l Hnotin _ IH]; simpl; constructor.
  - intros Hin. apply in_map_iff in Hin as (c' & Heq & Hc'). apply Hnotin.
    pose proof (Hl c (or_introl eq_refl)) as Hc.
    pose proof (Hl c' (or_intror Hc')) as Hk.
    destruct c, c'; try discriminate. simpl in Heq. now subst.
  - apply IH. intros y Hy. apply Hl. now right.
Qed.

(** In a list of strings without repetition in which none is after a later
    one, every string is before the later ones. *)
Lemma strictly_sorted (ls : list string) :
  List.NoDup ls → StronglySorted (fun a b => String.ltb b a = false) ls →
  StronglySorted str_lt ls.
Proof.
  induction ls as [|a ls IH]; intros Hnd Hs; [constructor|].
  inversion Hnd as [|? ? Hnotin Hnd']; subst.
  inversion Hs as [|? ? Htail Hhead]; subst.
  constructor; [now apply IH|].
  rewrite List.Forall_forall in Hhead. apply List.Forall_forall.
  intros b Hb. apply str_lt_total; [now apply Hhead|].
  intros ->. contradiction.
Qed.

Lemma has_number_unique (s : list cell) : has_number (unique s) ↔ has_number s.
Proof.
  unfold has_number. split.
  - intros (x & Hx). exists x. now apply In_unique.
  - intros (x & Hx). destruct (unique_covers s _ Hx) as (u & Hu & Hsame).
    apply cell_same_kind in Hsame. destruct u as [y|t]; [eauto | discriminate].
Qed.

Lemma has_string_unique (s : list cell) : has_string (unique s) ↔ has_string s.
Proof.
  unfold has_string. split.
  - intros (t & Ht). exists t. now apply In_unique.
  - intros (t & Ht). destruct (unique_covers s _ Ht) as (u & Hu & Hsame).
    apply cell_same_string in Hsame as ->. eauto.
Qed.

(** X2.  When the frame has a [Market] column, line 55 either raises
    [TypeError], which it does exactly when the column holds both a number (a
    missing cell is one) and a string, or returns the distinct values of the
    column, each once, in some order. *)
Theorem all_markets_type_error (df : DataFrame) (market : list cell) :
  getitem df "Market" = Ok market →
  (has_number market ∧ has_string market ∧ all_markets df = Raise TypeError) ∨
  (¬ (has_number market ∧ has_string market) ∧
   ∃ markets, all_markets df = Ok markets ∧ Permutation (unique market) markets).
Proof.
  intros Hcol. unfold all_markets. rewrite Hcol, result_bind_Ok.
  pose proof (sorted_spec (unique market)) as Hsorted.
  destruct (mixed_kinds (unique market)) eqn:Hmix.
  - left. apply mixed_kinds_spec in Hmix as [Hn Hs].
    apply (proj1 (has_number_unique market)) in Hn.
    apply (proj1 (has_string_unique market)) in Hs.
    split; [exact Hn|]. split; [exact Hs|]. exact Hsorted.
  - right. split.
    + intros [Hn Hs].
      apply (proj2 (has_number_unique market)) in Hn.
      apply (proj2 (has_string_unique market)) in Hs.
      assert (mixed_kinds (unique market) = true) by now apply mixed_kinds_spec.
      congruence.
    + destruct Hsorted as (s & Hs & Hperm). eauto.
Qed.

Lemma all_markets_type_error_witness :
  getitem table_mixed_markets "Market" = Ok [CStr "A"; NaN] ∧
  all_markets table_mixed_markets = Raise TypeError.
Proof.
  assert (Hcol : getitem table_mixed_markets "Market" = Ok [CStr "A"; NaN])
    by reflexivity.
  split; [exact Hcol|].
  destruct (all_markets_type_error table_mixed_markets _ Hcol)
    as [(_ & _ & Hraise) | (Hnot & _)]; [exact Hraise|].
  exfalso. apply Hnot. split.
  - exists F64.nan. right. left. reflexivity.
  - exists "A". left. reflexivity.
Defined.

Lemma In_labels (s : list cell) (t : string) :
  (∀ y, In y s → numeric y = false) →
  In t (map label_of s) ↔ In (CStr t) s.
Proof.
  intros Hs. rewrite in_map_iff. split.
  - intros (c & <- & Hc). specialize (Hs c Hc).
    destruct c; [discriminate | assumption].
  - intros Hin. exists (CStr t). auto.
Qed.

(** X3.  When every cell of the [Market] column is a string, line 55 returns
    the labels of the column, each once, every label before the ones that
    follow it in the order of Python on strings. *)
Theorem all_markets_of_labels (df : DataFrame) (market : list cell) :
  getitem df "Market" = Ok market →
  (∀ c, In c market → numeric c = false) →
  ∃ labels,
    all_markets df = Ok (map CStr labels) ∧
    StronglySorted str_lt labels ∧
    ∀ t, In t labels ↔ In (CStr t) market.
Proof.
  intros Hcol Hstr. unfold all_markets. rewrite Hcol, result_bind_Ok.
  assert (Hu : ∀ c, In c (unique market) → numeric c = false)
    by (intros c Hc; apply Hstr; now apply In_unique).
  destruct (sorted_one_kind_Ok (unique market)) as [s Hs].
  { intros a b Ha Hb. now rewrite (Hu a Ha), (Hu b Hb). }
  pose proof (sorted_perm _ _ Hs) as Hperm.
  assert (Hk : ∀ c, In c s → numeric c = false)
    by (intros c Hc; apply Hu, (Permutation_in _ (Permutation_sym Hperm)), Hc).
  exists (map label_of s). split; [|split].
  - now rewrite Hs, <- strings_as_labels.
  - apply strictly_sorted.
    + apply NoDup_labels; [assumption|].
      apply (Permutation_NoDup Hperm), distinct_NoDup, unique_acc_distinct.
    + apply (StronglySorted_map (fun a b => String.ltb b a = false) label_of).
      apply (sorted_strings (unique market)); assumption.
  - intros t. rewrite (In_labels s t Hk). split.
    + intros Hin. apply In_unique.
      apply (Permutation_in _ (Permutation_sym Hperm)), Hin.
    + intros Hin. destruct (unique_covers market _ Hin) as (u & Hu' & Hsame).
      apply cell_same_string in Hsame as ->.
      apply (Permutation_in _ Hperm), Hu'.
Qed.

Lemma all_markets_of_labels_witness :
  getitem scenario "Market" = Ok [CStr "A"; CStr "B"; CStr "A"] ∧
  ∃ labels,
    all_markets scenario = Ok (map CStr labels) ∧
    StronglySorted str_lt labels ∧
    ∀ t, In t labels ↔ In (CStr t) [CStr "A"; CStr "B"; CStr "A"].
Proof.
  split; [reflexivity|].
  apply (all_markets_of_labels scenario [CStr "A"; CStr "B"; CStr "A"] eq_refl).
  intros c [<- | [<- | [<- | []]]]; reflexivity.
Defined.

(** ** The default view (lines 44-67) *)







(** ** Narrowing a filter (lines 63-67) *)

Lemma filter_filter_implies {A : Type} (p q : A → bool) (l : list A) :
  (∀ a, In a l → q a = true → p a = true) →
  List.filter q (List.filter p l) = List.filter q l.
Proof.
  induction l as [|a l IH]; intros H; simpl; [reflexivity|].
  rewrite <- IH by (intros b Hb; apply H; now right).
  destruct (p a) eqn:Ep; simpl; [reflexivity|].
  destruct (q a) eqn:Eq; [|reflexivity].
  rewrite (H a (or_introl eq_refl) Eq) in Ep. discriminate.
Qed.

Lemma view_is_dataset (df : DataFrame) (p : row → bool) :
  is_dataset df = true →
  is_dataset {| columns := columns df; rows := List.filter p (rows df) |} = true.
Proof.
  unfold is_dataset. cbn [columns rows].
  destruct (column_position "Distance" (columns df)); [|discriminate].
  destruct (column_position "Market" (columns df)); [|discriminate].
  rewrite !forallb_forall. intros H r Hr. apply H. now apply filter_In in Hr.
Qed.

(** X5.  Filtering a view again with a range inside the first range and a
    selection taken from the first selection gives what that narrower filter
    gives on the whole Dataset. *)
Theorem narrower_filter_on_view (df view : DataFrame) (lo hi lo' hi' : F64.t)
    (S S' : list cell) :
  filtered_df df (lo, hi) S = Ok view →
  F64.leb lo lo' = true → F64.leb hi' hi = true → incl S' S →
  filtered_df view (lo', hi') S' = filtered_df df (lo', hi') S'.
Proof.
  intros Hview Hlo Hhi Hincl.
  pose proof (filtered_df_is_dataset _ _ _ _ Hview) as Hds.
  rewrite filtered_df_dataset in Hview by assumption. injection Hview as <-.
  rewrite !filtered_df_dataset by (try apply view_is_dataset; assumption).
  cbn [columns rows]. do 2 f_equal.
  change (row_in_view {| columns := columns df;
                         rows := List.filter (row_in_view df lo hi S) (rows df) |}
            lo' hi' S')
    with (row_in_view df lo' hi' S').
  apply filter_filter_implies. intros r _.
  rewrite !row_in_view_spec.
  intros (d & m & Hd & Hm & H1 & H2 & (s & Hs & Hsame)).
  exists d, m. repeat split; try assumption.
  - eapply leb_trans; eassumption.
  - eapply leb_trans; eassumption.
  - exists s. split; [now apply Hincl | assumption].
Qed.

Lemma narrower_filter_on_view_witness :
  let view := {| columns := columns scenario; rows := firstn 2 (rows scenario) |} in
  filtered_df scenario (F64.of_Z 0, F64.of_Z 6) [CStr "A"; CStr "B"] = Ok view ∧
  F64.leb (F64.of_Z 0) (F64.of_Z 1) = true ∧
  F64.leb (F64.of_Z 5) (F64.of_Z 6) = true ∧
  incl [CStr "B"] [CStr "A"; CStr "B"] ∧
  filtered_df view (F64.of_Z 1, F64.of_Z 5) [CStr "B"]
  = filtered_df scenario (F64.of_Z 1, F64.of_Z 5) [CStr "B"].
Proof.
  intros view.
  assert (Hincl : incl [CStr "B"] [CStr "A"; CStr "B"])
    by (intros c [<- | []]; right; now left).
  split; [reflexivity|]. split; [reflexivity|]. split; [reflexivity|].
  split; [exact Hincl|].
  exact (narrower_filter_on_view scenario view (F64.of_Z 0) (F64.of_Z 6)
           (F64.of_Z 1) (F64.of_Z 5) [CStr "A"; CStr "B"] [CStr "B"]
           eq_refl eq_refl eq_refl Hincl).
Defined.

(** ** The metrics of a view (lines 70-74) *)

Lemma nunique_le_length (s : list cell) : (nunique s ≤ length s)%nat.
Proof.
  unfold nunique, unique.
  pose proof (length_unique_acc [] (List.filter (fun c => negb (isna c)) s)).
  pose proof (filter_length_le (fun c => negb (isna c)) s). lia.
Qed.

(** X6.  On a view that the Filter Stage returned for the range from [lo] to
    [hi], the metrics row can be computed: the number of distinct markets is
    at most the number of records, and the maximum Distance is NaN when the
    view has no row and otherwise the Distance of one of its rows, between
    [lo] and [hi]. *)
Theorem view_metrics_within_range (df view : DataFrame) (lo hi : F64.t)
    (S : list cell) :
  filtered_df df (lo, hi) S = Ok view →
  ∃ market distance highest,
    getitem view "Market" = Ok market ∧
    (nunique market ≤ len view)%nat ∧
    getitem view "Distance" = Ok distance ∧
    series_max distance = Ok highest ∧
    ((rows view = [] ∧ highest = F64.nan) ∨
     (F64.leb lo highest = true ∧ F64.leb highest hi = true ∧
      ∃ r, In r (rows view) ∧ field view "Distance" r = Some (CNum highest))).
Proof.
  intros Hview.
  pose proof (filtered_df_is_dataset _ _ _ _ Hview) as Hds.
  rewrite filtered_df_dataset in Hview by assumption. injection Hview as <-.
  set (view := {| columns := columns df;
                  rows := List.filter (row_in_view df lo hi S) (rows df) |}).
  pose proof (view_is_dataset df (row_in_view df lo hi S) Hds) as Hvds.
  fold view in Hvds. unfold is_dataset in Hvds.
  destruct (column_position "Distance" (columns view)) as [pd|] eqn:Hpd; [|discriminate].
  destruct (column_position "Market" (columns view)) as [pm|] eqn:Hpm; [|discriminate].
  set (xs := map (fun r => float_of (cell_at pd r)) (rows view)).
  exists (map (cell_at pm) (rows view)), (map (cell_at pd) (rows view)), (reduce fmax xs).
  assert (Hrow : ∀ r, In r (rows view) →
            ∃ d, cell_at pd r = CNum d ∧ F64.leb lo d = true ∧ F64.leb d hi = true).
  { intros r Hr. apply filter_In in Hr as [_ Hr].
    apply row_in_view_spec in Hr as (d & m & Hd & _ & H1 & H2 & _).
    unfold field in Hd. change (columns df) with (columns view) in Hd.
    rewrite Hpd in Hd. injection Hd as Hd. eauto. }
  split; [unfold getitem; now rewrite Hpm|].
  split; [unfold len; rewrite <- (length_map (cell_at pm)); apply nunique_le_length|].
  split; [unfold getitem; now rewrite Hpd|].
  split.
  { unfold series_max. rewrite as_floats_numeric by now rewrite forallb_map.
    rewrite result_bind_Ok. unfold xs. now rewrite map_map. }
  destruct (reduce_fmax_spec xs) as [[Hnone Hnan] | [Hin _]].
  - left. split; [|assumption].
    assert (Hno : ∀ r, ¬ In r (rows view)).
    { intros r Hr. destruct (Hrow r Hr) as (d & Hc & H1 & _).
      assert (Hd : In d (dropna xs)).
      { apply In_dropna. split; [|exact (leb_not_nan _ _ H1)].
        apply in_map_iff. exists r. now rewrite Hc. }
      now rewrite Hnone in Hd. }
    revert Hno. generalize (rows view).
    intros [|r rs] Hno; [reflexivity | destruct (Hno r (or_introl eq_refl))].
  - right. apply (In_distances view pd _ Hvds) in Hin as (r & Hr & Hc & _).
    destruct (Hrow r Hr) as (d & Hc' & H1 & H2).
    rewrite Hc in Hc'. injection Hc' as <-.
    split; [assumption|]. split; [assumption|].
    exists r. split; [assumption|]. unfold field. rewrite Hpd. simpl.
    now rewrite Hc.
Qed.

Lemma view_metrics_within_range_witness :
  let view := {| columns := columns scenario; rows := firstn 2 (rows scenario) |} in
  filtered_df scenario (F64.of_Z 0, F64.of_Z 6) [CStr "A"; CStr "B"] = Ok view ∧
  ∃ market distance highest,
    getitem view "Market" = Ok market ∧
    (nunique market ≤ len view)%nat ∧
    getitem view "Distance" = Ok distance ∧
    series_max distance = Ok highest ∧
    ((rows view = [] ∧ highest = F64.nan) ∨
     (F64.leb (F64.of_Z 0) highest = true ∧ F64.leb highest (F64.of_Z 6) = true ∧
      ∃ r, In r (rows view) ∧ field view "Distance" r = Some (CNum highest))).
Proof.
  intros view. split; [reflexivity|].
  exact (view_metrics_within_range scenario view (F64.of_Z 0) (F64.of_Z 6)
           [CStr "A"; CStr "B"] eq_refl).
Defined.

(** ** The counts per market (lines 82-83) *)

Lemma filter_length_split {A : Type} (p q1 q2 : A → bool) (l : list A) :
  (∀ a, p a = q1 a || q2 a) → (∀ a, q1 a && q2 a = false) →
  length (List.filter p l)
  = (length (List.filter q1 l) + length (List.filter q2 l))%nat.
Proof.
  intros Hp Hq. induction l as [|a l IH]; simpl; [reflexivity|].
  rewrite Hp. specialize (Hq a).
  destruct (q1 a), (q2 a); simpl in *; try discriminate; lia.
Qed.

Lemma filter_ext_all {A : Type} (p q : A → bool) (l : list A) :
  (∀ a, p a = q a) → List.filter p l = List.filter q l.
Proof. intros H. apply filter_ext_in'. auto. Qed.

(** The occurrences in [t] of the values that [unique] keeps are the cells of
    [t] that are the same as a value of [s] and as none of [seen]. *)
Lemma count_partition (seen s t : list cell) :
  list_sum (map (fun u => count_of u t) (unique_acc seen s))
  = length (List.filter
              (fun c => negb (existsb (cell_same c) seen) && existsb (cell_same c) s) t).
Proof.
  revert seen. induction s as [|a s IH]; intros seen; simpl.
  - rewrite (filter_ext_all _ (fun _ => false)) by (intros c; apply andb_false_r).
    now rewrite filter_false.
  - destruct (existsb (cell_same a) seen) eqn:Hseen.
    + rewrite IH. f_equal. apply filter_ext_all. intros c.
      destruct (cell_same c a) eqn:Hca; [|reflexivity].
      now rewrite (seen_same c a seen Hca), Hseen.
    + simpl. rewrite IH. unfold count_of. symmetry.
      apply filter_length_split; intros c; simpl;
        rewrite (cell_same_sym a c); destruct (cell_same c a) eqn:Hca; simpl;
        try reflexivity.
      now rewrite (seen_same c a seen Hca), Hseen.
Qed.

Lemma length_insert_by_count (p : cell * nat) (l : list (cell * nat)) :
  length (insert_by_count p l) = S (length l).
Proof.
  induction l as [|q l IH]; simpl; [reflexivity|].
  destruct (_ <=? _)%nat; simpl; congruence.
Qed.

Lemma insert_by_count_perm (p : cell * nat) (l : list (cell * nat)) :
  Permutation (p :: l) (insert_by_count p l).
Proof.
  induction l as [|q l IH]; simpl; [reflexivity|].
  destruct (_ <=? _)%nat; [reflexivity|].
  rewrite perm_swap. now constructor.
Qed.

Lemma by_count_perm (l : list (cell * nat)) :
  Permutation l (fold_right insert_by_count [] l).
Proof.
  induction l as [|p l IH]; simpl; [reflexivity|].
  rewrite <- insert_by_count_perm. now constructor.
Qed.

Lemma insert_by_count_sorted (p : cell * nat) (l : list (cell * nat)) :
  StronglySorted (fun a b => (b.2 ≤ a.2)%nat) l →
  StronglySorted (fun a b => (b.2 ≤ a.2)%nat) (insert_by_count p l).
Proof.
  induction 1 as [|q l Hl IH Hq]; simpl; [repeat constructor|].
  destruct (q.2 <=? p.2)%nat eqn:E.
  - apply Nat.leb_le in E. constructor; [now constructor|].
    constructor; [assumption|].
    rewrite List.Forall_forall in Hq. apply List.Forall_forall.
    intros r Hr. specialize (Hq r Hr). simpl in *. lia.
  - apply Nat.leb_gt in E. constructor; [assumption|].
    apply List.Forall_forall. intros r Hr.
    apply (Permutation_in _ (Permutation_sym (insert_by_count_perm p l))) in Hr.
    destruct Hr as [<- | Hr]; [simpl in *; lia|].
    rewrite List.Forall_forall in Hq. now apply Hq.
Qed.

Lemma by_count_sorted (l : list (cell * nat)) :
  StronglySorted (fun a b => (b.2 ≤ a.2)%nat) (fold_right insert_by_count [] l).
Proof.
  induction l as [|p l IH]; simpl; [constructor|].
  now apply insert_by_count_sorted.
Qed.

Lemma list_sum_perm (l l' : list nat) : Permutation l l' → list_sum l = list_sum l'.
Proof. induction 1; simpl; lia. Qed.

Lemma count_all (vs : list cell) :
  list_sum (map (fun u => count_of u vs) (unique vs)) = length vs.
Proof.
  unfold unique. rewrite count_partition. f_equal.
  apply forallb_filter_id, forallb_forall. intros c Hc. simpl.
  apply existsb_exists. exists c. split; [assumption | apply cell_same_refl].
Qed.

(** X7.  The counts behind the bar chart: there is one entry per distinct
    market that is not missing, as many as the Unique Markets metric says; the
    counts add up to the number of cells with a market; they come largest
    first; and each entry holds a market of the Series with the number of its
    occurrences, which is at least 1. *)
Theorem value_counts_summary (s : list cell) :
  length (value_counts s) = nunique s ∧
  list_sum (map snd (value_counts s))
  = length (List.filter (fun c => negb (isna c)) s) ∧
  StronglySorted (fun a b => (b.2 ≤ a.2)%nat) (value_counts s) ∧
  ∀ c n, In (c, n) (value_counts s) →
    isna c = false ∧ In c s ∧
    n = count_of c (List.filter (fun c => negb (isna c)) s) ∧ (1 ≤ n)%nat.
Proof.
  unfold value_counts, nunique.
  set (vs := List.filter (fun c => negb (isna c)) s).
  set (entries := map (fun c => (c, count_of c vs)) (unique vs)).
  pose proof (by_count_perm entries) as Hperm.
  split; [|split; [|split]].
  - rewrite <- (Permutation_length Hperm). unfold entries. apply length_map.
  - rewrite <- (list_sum_perm _ _ (Permutation_map snd Hperm)).
    unfold entries. rewrite map_map. apply count_all.
  - apply by_count_sorted.
  - intros c n Hin.
    apply (Permutation_in _ (Permutation_sym Hperm)) in Hin.
    apply in_map_iff in Hin as (u & [= <- <-] & Hu).
    apply In_unique in Hu. pose proof Hu as Hvs.
    apply filter_In in Hu as [Hs Hna]. apply negb_true_iff in Hna.
    repeat split; auto.
    unfold count_of.
    assert (Hc : In u (List.filter (cell_same u) vs))
      by (apply filter_In; split; [assumption | apply cell_same_refl]).
    destruct (List.filter (cell_same u) vs); [destruct Hc | simpl; lia].
Qed.

(** ** Files that exist (lines 21-35) *)

Lemma set_cell_nth (pos : nat) (cells : list cell) :
  (pos < length cells)%nat → set_cell pos (nth pos cells NaN) cells = cells.
Proof.
  revert cells. induction pos as [|pos IH]; intros [|c cells] Hlen; simpl in *;
    try lia; [reflexivity|].
  f_equal. apply IH. lia.
Qed.

Section ExistingFiles.

Variable parse_number : string → option F64.t.
Variable repr_float : F64.t → string.
Variable os : os_state.

(** X8.  A file that exists and reads as a table with a [Distance] column but
    without any row is announced as found in the sidebar, and then reported by
    the banner of line 35 as not found; the pass ends normally and nothing of
    the dashboard is shown. *)
Theorem file_without_rows_reported_missing (raw : DataFrame) (pd : nat)
    (ws : widgets) :
  csv_file os = Some (table raw) →
  column_position "Distance" (columns raw) = Some pd →
  rows raw = [] →
  rerun parse_number repr_float os None ws
  = (Ok tt,
     {| heap := [{| columns := columns raw; rows := [] |}];
        cache := Some ({| columns := columns raw; rows := [] |}, file_found_page os);
        page := file_found_page os ++ [not_found_banner] |}).
Proof.
  intros Hfile Hpd Hrows.
  unfold rerun, script, cache_data, mbind, M_bind. cbn [heap cache page].
  rewrite (load_data_table parse_number os raw pd) by assumption.
  unfold coerced_frame. rewrite Hrows. cbn.
  now destruct (columns raw).
Qed.

(** X9.  When [load_data] ends with an exception (the file exists but
    [pd.read_csv] raises, or the table has no [Distance] column), every pass
    of the session announces the file as found, ends with that exception, and
    leaves the cache empty, so that the next pass loads again. *)
Theorem failed_load_not_cached (f : file) (err : exn) :
  csv_file os = Some f → load_error f = Some err →
  ∀ interactions out,
    In out (session parse_number repr_float os interactions) →
    out = (Raise err,
           {| heap := read_so_far f; cache := None; page := file_found_page os |}).
Proof.
  intros Hfile Herr interactions.
  assert (Hpass : ∀ ws, rerun parse_number repr_float os None ws
            = (Raise err, {| heap := read_so_far f; cache := None;
                             page := file_found_page os |})).
  { intros ws. unfold rerun, script, cache_data, mbind at 1, M_bind at 1.
    cbn [heap cache page]. unfold load_data. rewrite Hfile. unfold read_csv.
    destruct f as [raw|e]; simpl in Herr.
    - destruct (column_position "Distance" (columns raw)) eqn:Hpd; [discriminate|].
      injection Herr as <-. run_M. unfold getitem. simpl. rewrite Hpd. reflexivity.
    - injection Herr as <-. run_M. reflexivity. }
  unfold session. induction interactions as [|ws rest IH]; simpl; [tauto|].
  rewrite Hpass. simpl. intros out [<- | Hin]; [reflexivity | now apply IH].
Qed.

(** X10.  A table whose [Distance] cells are all numbers, in rows that reach
    the [Distance] column, is loaded as it was read: the coercion of line 24
    changes nothing. *)
Theorem numeric_table_loaded_as_is (raw : DataFrame) (pd : nat) (w : world) :
  csv_file os = Some (table raw) →
  column_position "Distance" (columns raw) = Some pd →
  (∀ r, In r (rows raw) → (pd < length r.2)%nat ∧ numeric (cell_at pd r) = true) →
  load_data parse_number os w
  = (Ok (length (heap w)),
     {| heap := heap w ++ [raw]; cache := cache w;
        page := page w ++ file_found_page os |}).
Proof.
  intros Hfile Hpd Hrows.
  rewrite (load_data_table parse_number os raw pd) by assumption.
  do 3 f_equal. unfold coerced_frame. destruct raw as [cols rs]. simpl in *.
  f_equal. rewrite <- (map_id rs) at 2. f_equal. apply map_ext_in.
  intros [i cells] Hr. destruct (Hrows _ Hr) as [Hlen Hnum]. simpl in *.
  unfold cell_at in *. simpl in *.
  destruct (nth pd cells NaN) as [x|t] eqn:E; [|discriminate]. simpl.
  now rewrite <- E, set_cell_nth.
Qed.

End ExistingFiles.

Lemma file_without_rows_reported_missing_witness :
  let os := os_with (Some (table table_header_only)) in
  csv_file os = Some (table table_header_only) ∧
  column_position "Distance" (columns table_header_only) = Some 0%nat ∧
  rows table_header_only = [] ∧
  page (rerun parse_decimal repr_exact os None untouched).2
  = (file_found_page os ++ [not_found_banner])%list.
Proof.
  intros os. split; [reflexivity|]. split; [reflexivity|]. split; [reflexivity|].
  exact (f_equal (fun out => page out.2)
           (file_without_rows_reported_missing parse_decimal repr_exact os
              table_header_only 0 untouched eq_refl eq_refl eq_refl)).
Defined.

Lemma failed_load_not_cached_witness :
  let os := os_with (Some (unreadable EmptyDataError)) in
  csv_file os = Some (unreadable EmptyDataError) ∧
  load_error (unreadable EmptyDataError) = Some EmptyDataError ∧
  ∀ out,
    In out (session parse_decimal repr_exact os [untouched; untouched]) →
    out = (Raise EmptyDataError,
           {| heap := []; cache := None; page := file_found_page os |}).
Proof.
  intros os. split; [reflexivity|]. split; [reflexivity|].
  exact (failed_load_not_cached parse_decimal repr_exact os
           (unreadable EmptyDataError) EmptyDataError eq_refl eq_refl
           [untouched; untouched]).
Defined.

Lemma numeric_table_loaded_as_is_witness :
  let os := os_with (Some (table scenario)) in
  csv_file os = Some (table scenario) ∧
  column_position "Distance" (columns scenario) = Some 0%nat ∧
  (load_data parse_decimal os fresh).2
  = {| heap := [scenario]; cache := None; page := file_found_page os |}.
Proof.
  intros os. split; [reflexivity|]. split; [reflexivity|].
  refine (f_equal snd
            (numeric_table_loaded_as_is parse_decimal os scenario 0 fresh
               eq_refl eq_refl _)).
  intros r [<- | [<- | [<- | []]]]; split; simpl; try reflexivity; lia.
Defined.

(** ** The cache and the file (line 12) *)

Lemma dashboard_linesep (repr_float : F64.t → string) (os os' : os_state)
    (df : nat) (ws : widgets) :
  linesep os = linesep os' →
  dashboard repr_float os df ws = dashboard repr_float os' df ws.
Proof.
  intros H. unfold dashboard, bottom_section, to_csv. now rewrite H.
Qed.

(** X11.  Once the cache holds a Dataset, a pass does not look at the file
    again: whatever file is or is not there now, whatever the folder holds and
    however numbers would be read, the pass is the one the cached Dataset
    gives (the line separator of the platform, which [to_csv] uses, being the
    same). *)
Theorem cached_pass_ignores_files (parse_number parse_number' : string → option F64.t)
    (repr_float : F64.t → string) (os os' : os_state)
    (c : DataFrame * list element) (ws : widgets) :
  linesep os = linesep os' →
  rerun parse_number repr_float os (Some c) ws
  = rerun parse_number' repr_float os' (Some c) ws.
Proof.
  intros H. unfold rerun, script, cache_data, mbind at 1 3, M_bind at 1 3.
  cbn [cache]. destruct c as [value written].
  destruct (alloc value _) as [[df|e] w1]; [|reflexivity].
  now rewrite (dashboard_linesep repr_float os os' df ws H).
Qed.

Lemma cached_pass_ignores_files_witness :
  let c := (scenario, file_found_page (os_with (Some (table scenario)))) in
  linesep (os_with (Some (table scenario))) = linesep (os_with None) ∧
  rerun parse_decimal repr_exact (os_with (Some (table scenario))) (Some c) untouched
  = rerun (fun _ => None) repr_exact (os_with None) (Some c) untouched.
Proof.
  intros c. split; [reflexivity|].
  exact (cached_pass_ignores_files parse_decimal (fun _ => None) repr_exact
           (os_with (Some (table scenario))) (os_with None) c untouched eq_refl).
Defined.

(** ** A frame without a Market column (line 55) *)



(** ** The charts (lines 77-98) *)

(** X13.  On a view of the store that has a [Market] column the charts stage
    ends normally: the counts per market go into a new frame, whose columns
    the assignment of line 83 renames in place to [Market] and [Count]; the
    bar chart is built from that frame and the histogram from the view
    itself, which stays as it was. *)
Theorem charts_of_view (filtered : nat) (w : world) (pm : nat) :
  (filtered < length (heap w))%nat →
  column_position "Market" (columns (heap w !!! filtered)) = Some pm →
  middle_row_charts filtered w
  = (Ok tt,
     {| heap := heap w ++ [market_counts_frame pm (heap w !!! filtered)];
        cache := cache w;
        page := page w ++
          [st_markdown "### 📊 Visual Analytics";
           st_columns 2;
           st_plotly_chart
             (px_bar (market_counts_frame pm (heap w !!! filtered))
                "Market" "Count" "Market" "Issues per Market");
           st_plotly_chart
             (px_histogram (heap w !!! filtered) "Distance" 20
                "Distance Spread (Source to Target)")] |}).
Proof.
  intros Hlen Hpm.
  unfold middle_row_charts, set_columns. run_M.
  unfold getitem. rewrite Hpm. cbn [fst snd heap cache page].
  rewrite lookup_last. cbn [columns length Nat.eqb value_counts_reset_index].
  run_M. rewrite store_last, lookup_last.
  rewrite (lookup_total_app_l (heap w)) by assumption.
  rewrite <- !app_assoc. reflexivity.
Qed.

Lemma charts_of_view_witness :
  let view := {| columns := columns scenario; rows := firstn 2 (rows scenario) |} in
  let w := {| heap := [scenario; view]; cache := None; page := [] |} in
  (1 < length (heap w))%nat ∧
  column_position "Market" (columns (heap w !!! 1%nat)) = Some 1%nat ∧
  rows (market_counts_frame 1 view)
  = [(0%nat, [CStr "A"; CNum (F64.of_Z 1)]); (1%nat, [CStr "B"; CNum (F64.of_Z 1)])] ∧
  (middle_row_charts 1 w).1 = Ok tt.
Proof.
  intros view w.
  assert (Hlen : (1 < length (heap w))%nat) by (simpl; lia).
  split; [exact Hlen|]. split; [reflexivity|]. split; [reflexivity|].
  exact (f_equal fst (charts_of_view 1 w 1 Hlen eq_refl)).
Defined.
